(** * Task scheduler core of main.ts: store, validation, GitHub client, startup

    A shallow embedding of the Deno program in [src/main.ts]: the task store
    over Deno KV ([TaskStore]), the request validation, the HTTP handlers that
    form the public contract (create, update, delete, toggle, run, status), the
    GitHub client ([GitHubAPI]) and the timer registration of [startApp].

    Conventions of the embedding.
    - A JavaScript string is the Rocq [string] of its UTF-8 bytes.
    - A JSON value is a [jsval]; an object is a finite map from property names
      to values, and object spread [{...a, ...b}] is the union of the maps with
      the right operand winning.
    - [await] is sequencing: handlers run one at a time.
    - The Deno KV prefix ["tasks"] is a finite map from task id to record.
      A read of the whole prefix can throw, which [TaskStore.list] catches:
      whether it does is an input of the operation ([kv_read]). A read, a
      write or a delete of one key is taken to answer.
    - [crypto.randomUUID()] and [new Date().toISOString()] are inputs of the
      operation that calls them.
    - [fetch] is an oracle over an abstract world; every request that is issued
      is appended to a log. *)

From stdpp Require Import gmap strings list fin_maps.
From Stdlib Require Import ZArith Ascii.
From Stdlib Require DecimalString.

#[local] Set Warnings "-register-all,-clear-no-such-hyp".
#[local] Open Scope Z_scope.

(** ** Strings: [String.prototype.trim], [includes], [split] *)

Module JsString.

Definition bytes (l : list nat) : list ascii := map ascii_of_nat l.

(** The code points of WhiteSpace and LineTerminator (ECMA-262, 12.2 and
    12.3), which [trim] removes, each as its UTF-8 encoding:
    U+0009..U+000D, U+0020, U+00A0, U+1680, U+2000..U+200A, U+2028, U+2029,
    U+202F, U+205F, U+3000, U+FEFF. *)
Definition WhiteSpace : list (list ascii) :=
  map bytes
    [ [9]; [10]; [11]; [12]; [13]; [32]; [194; 160]; [225; 154; 128];
      [226; 128; 128]; [226; 128; 129]; [226; 128; 130]; [226; 128; 131];
      [226; 128; 132]; [226; 128; 133]; [226; 128; 134]; [226; 128; 135];
      [226; 128; 136]; [226; 128; 137]; [226; 128; 138];
      [226; 128; 168]; [226; 128; 169]; [226; 128; 175]; [226; 129; 159];
      [227; 128; 128]; [239; 187; 191] ]%nat.

(** [drop_prefix p s] is the rest of [s] after its prefix [p]. *)
Fixpoint drop_prefix (p s : list ascii) : option (list ascii) :=
  match p, s with
  | [], _ => Some s
  | a :: p', b :: s' => if Ascii.eqb a b then drop_prefix p' s' else None
  | _ :: _, [] => None
  end.

Fixpoint drop_any (table : list (list ascii)) (s : list ascii)
  : option (list ascii) :=
  match table with
  | [] => None
  | w :: table' =>
      match drop_prefix w s with
      | Some r => Some r
      | None => drop_any table' s
      end
  end.

(** Remove leading members of [table] for as long as there is one. *)
Fixpoint strip (table : list (list ascii)) (fuel : nat) (s : list ascii)
  : list ascii :=
  match fuel with
  | O => s
  | S fuel' =>
      match drop_any table s with
      | Some r => strip table fuel' r
      | None => s
      end
  end.

Definition trimStart_bytes (s : list ascii) : list ascii :=
  strip WhiteSpace (length s) s.

Definition trimEnd_bytes (s : list ascii) : list ascii :=
  rev (strip (map (@rev ascii) WhiteSpace) (length s) (rev s)).

Definition trim_bytes (s : list ascii) : list ascii :=
  trimEnd_bytes (trimStart_bytes s).

(** [s.trim()] *)
Definition trim (s : string) : string :=
  String.string_of_list_ascii (trim_bytes (String.list_ascii_of_string s)).

(** [s.split("/")]: never empty, one more segment than separators. *)
Fixpoint split_slash (s : string) : list string :=
  match s with
  | EmptyString => [EmptyString]
  | String c s' =>
      if Ascii.eqb c "/"%char then EmptyString :: split_slash s'
      else match split_slash s' with
           | seg :: segs => String c seg :: segs
           | [] => [String c EmptyString]
           end
  end.

(** [s.includes("/")] *)
Fixpoint includes_slash (s : string) : bool :=
  match s with
  | EmptyString => false
  | String c s' => Ascii.eqb c "/"%char || includes_slash s'
  end.

(** [s.split("/").pop()], the segment after the last separator. *)
Definition last_segment (s : string) : string :=
  List.last (split_slash s) EmptyString.

End JsString.

(** ** JSON values and the JavaScript operations the program applies to them *)

Inductive jsval : Type :=
| JUndefined
| JNull
| JBool (b : bool)
| JNum (n : Z)
| JStr (s : string)
| JArr (l : list jsval)
| JObj (o : gmap string jsval).

Abbreviation jsobj := (gmap string jsval).

(** What the program throws: [AppError] of main.ts with its [status], and the
    runtime's own errors (a [TypeError] of a property access or call, or an
    error of the environment: a rejected [fetch], a body that is not JSON). *)
Inductive exn : Type :=
| AppError (message : string) (status : Z)
| TypeError (message : string)
| RuntimeError (message : string).

(** [error.message] *)
Definition error_message (e : exn) : string :=
  match e with
  | AppError m _ | TypeError m | RuntimeError m => m
  end.

(** [error.status] *)
Definition error_status (e : exn) : jsval :=
  match e with
  | AppError _ st => JNum st
  | TypeError _ | RuntimeError _ => JUndefined
  end.

(** ToBoolean; a number parsed from JSON is never NaN. *)
Definition truthy (v : jsval) : bool :=
  match v with
  | JUndefined | JNull => false
  | JBool b => b
  | JNum n => negb (n =? 0)
  | JStr s => negb (String.eqb s "")
  | JArr _ | JObj _ => true
  end.

(** [a === b]. Two objects or arrays are equal only when they are the same
    object; the program compares a value with a literal or with a value
    read from another source, never an object with itself. *)
Definition strict_eq (a b : jsval) : bool :=
  match a, b with
  | JUndefined, JUndefined | JNull, JNull => true
  | JBool x, JBool y => Bool.eqb x y
  | JNum x, JNum y => x =? y
  | JStr x, JStr y => String.eqb x y
  | _, _ => false
  end.

(** [o.k] on an object that is known to be one. *)
Definition prop (o : jsobj) (k : string) : jsval := default JUndefined (o !! k).

(** [v.k] for the property names the program reads. With V8, reading a
    property of [undefined] or [null] throws. *)
Definition get_prop (v : jsval) (k : string) : exn + jsval :=
  match v with
  | JUndefined =>
      inl (TypeError ("Cannot read properties of undefined (reading '" +:+ k +:+ "')"))
  | JNull =>
      inl (TypeError ("Cannot read properties of null (reading '" +:+ k +:+ "')"))
  | JObj o => inr (prop o k)
  | JArr l =>
      inr (if String.eqb k "length" then JNum (Z.of_nat (length l)) else JUndefined)
  | JStr s =>
      (* the number of code units; the program only tests it against zero *)
      inr (if String.eqb k "length" then JNum (Z.of_nat (String.length s))
           else JUndefined)
  | JBool _ | JNum _ => inr JUndefined
  end.

(** [v?.k] *)
Definition get_prop_opt (v : jsval) (k : string) : exn + jsval :=
  match v with
  | JUndefined | JNull => inr JUndefined
  | _ => get_prop v k
  end.

(** [v[0]] *)
Definition get_first (v : jsval) : exn + jsval :=
  match v with
  | JUndefined => inl (TypeError "Cannot read properties of undefined (reading '0')")
  | JNull => inl (TypeError "Cannot read properties of null (reading '0')")
  | JArr l => inr (default JUndefined (head l))
  | JObj o => inr (prop o "0")
  | JStr (String c _) => inr (JStr (String c EmptyString))
  | JStr EmptyString | JBool _ | JNum _ => inr JUndefined
  end.

(** [v.trim()]: only a string has the method. *)
Definition call_trim (what : string) (v : jsval) : exn + jsval :=
  match v with
  | JStr s => inr (JStr (JsString.trim s))
  | JUndefined =>
      inl (TypeError "Cannot read properties of undefined (reading 'trim')")
  | JNull => inl (TypeError "Cannot read properties of null (reading 'trim')")
  | _ => inl (TypeError (what +:+ ".trim is not a function"))
  end.

(** [v?.trim()] *)
Definition call_trim_opt (what : string) (v : jsval) : exn + jsval :=
  match v with
  | JUndefined | JNull => inr JUndefined
  | _ => call_trim what v
  end.

(** [a || b] *)
Definition js_or (a b : jsval) : jsval := if truthy a then a else b.

Definition string_of_Z (n : Z) : string :=
  DecimalString.NilZero.string_of_int (Z.to_int n).

Definition join_comma (l : list string) : string :=
  match l with
  | [] => ""
  | x :: l' => fold_left (fun acc y => acc +:+ "," +:+ y) l' x
  end.

(** ToString, as a template literal applies it to an interpolated value. *)
Fixpoint to_string (v : jsval) : string :=
  match v with
  | JUndefined => "undefined"
  | JNull => "null"
  | JBool true => "true"
  | JBool false => "false"
  | JNum n => string_of_Z n
  | JStr s => s
  | JArr l =>
      join_comma
        ((fix elements (l : list jsval) : list string :=
            match l with
            | [] => []
            | (JUndefined | JNull) :: l' => "" :: elements l'
            | e :: l' => to_string e :: elements l'
            end) l)
  | JObj _ => "[object Object]"
  end.

(** ** State and exceptions

    A computation reads and writes a state and either returns or throws. *)

Definition M (S A : Type) : Type := S -> (exn + A) * S.

Definition throw {S A} (e : exn) : M S A := fun s => (inl e, s).

(** A step of JavaScript evaluation that does not touch the state. *)
Definition lift {S A} (r : exn + A) : M S A := fun s => (r, s).

#[global] Instance M_ret {S} : MRet (M S) := fun A a s => (inr a, s).

#[global] Instance M_bind {S} : MBind (M S) :=
  fun A B k m s =>
    match m s with
    | (inr a, s') => k a s'
    | (inl e, s') => (inl e, s')
    end.

(** [try { m } catch (error) { h error }], and [promise.catch(h)] *)
Definition catch {S A} (m : M S A) (h : exn -> M S A) : M S A :=
  fun s =>
    match m s with
    | (inl e, s') => h e s'
    | (inr a, s') => (inr a, s')
    end.

Definition modify {S} (f : S -> S) : M S unit := fun s => (inr tt, f s).

Definition read {S} : M S S := fun s => (inr s, s).

(** ** Validation *)

(** [if (!task.f?.trim()) throw new AppError(message, 400)] *)
Definition require_field (task : jsval) (f message : string) : exn + unit :=
  match get_prop task f with
  | inl e => inl e
  | inr v =>
      match call_trim_opt ("task." +:+ f +:+ "?") v with
      | inl e => inl e
      | inr t => if truthy t then inr tt else inl (AppError message 400)
      end
  end.

Definition validateTaskData (task : jsval) : exn + unit :=
  match require_field task "name" "任务名称不能为空" with
  | inl e => inl e
  | inr _ =>
  match require_field task "repo" "仓库地址不能为空" with
  | inl e => inl e
  | inr _ =>
  match require_field task "workflow" "工作流不能为空" with
  | inl e => inl e
  | inr _ => require_field task "cron" "cron表达式不能为空"
  end end end.

(** ** The task store over Deno KV *)

(** The entries under the key prefix ["tasks"]: task id to stored value. *)
Abbreviation kvstore := (gmap string jsobj).

(** How the environment answers an iteration over the entries: it runs to
    its end, or [kv.list] or one of its steps throws. *)
Inductive kv_read : Type :=
| Completes
| Throws (error : exn).

Module TaskStore.

(** [this.kv.list({ prefix: ["tasks"] })], iterated to its end. *)
Definition entries (listing : kv_read) : M kvstore (list (string * jsobj)) :=
  match listing with
  | Completes => kv ← read; mret (map_to_list kv)
  | Throws error => throw error
  end.

(** [try { const tasks = [];
          for await (const { key, value } of iter)
            tasks.push({ id: key[1], ...value });
          return tasks;
        } catch (error) { console.error(..); return []; }] *)
Definition list (listing : kv_read) : M kvstore (list jsobj) :=
  catch
    (iter ← entries listing;
     mret (map (fun '(key1, value) => value ∪ {[ "id" := JStr key1 ]}) iter))
    (fun error => mret []).

Definition get (id : string) : M kvstore jsobj :=
  kv ← read;
  match kv !! id with
  | None => throw (AppError "任务不存在" 404)
  | Some value => mret value
  end.

(** [id] is the result of [crypto.randomUUID()] and [created_at] that of
    [new Date().toISOString()]. *)
Definition create (id created_at : string) (taskData : jsobj)
  : M kvstore string :=
  modify (fun kv : kvstore =>
            <[ id := <[ "created_at" := JStr created_at ]> taskData ]> kv) ;;
  mret id.

Definition update (id : string) (taskData : jsobj) (updated_at : string)
  : M kvstore unit :=
  existing ← get id;
  modify (fun kv : kvstore =>
            <[ id := <[ "updated_at" := JStr updated_at ]>
                       (taskData ∪ existing) ]> kv).

Definition delete (id : string) : M kvstore unit :=
  modify (fun kv : kvstore => base.delete id kv).

(** [tasks.some((t) => t.name === name.trim() && t.id !== excludeId)];
    [excludeId] defaults to [null]. *)
Definition checkNameExists (listing : kv_read) (name : string)
    (excludeId : jsval) : M kvstore bool :=
  tasks ← list listing;
  mret (existsb
         (fun t => strict_eq (prop t "name") (JStr (JsString.trim name))
                   && negb (strict_eq (prop t "id") excludeId))
         tasks).

End TaskStore.

(** ** The handlers of the task routes *)

(** Run a computation on one component of a pair of states. *)
Definition on_fst {S T A} (m : M S A) : M (S * T) A :=
  fun st => let '(r, s') := m (fst st) in (r, (s', snd st)).

Definition on_snd {S T A} (m : M T A) : M (S * T) A :=
  fun st => let '(r, t') := m (snd st) in (r, (fst st, t')).

(** Unfold the operations of [M]. *)
Ltac unfold_M :=
  unfold mbind, M_bind, mret, M_ret, lift, throw, read, modify, catch,
    on_fst, on_snd in *.

(** The key [["tasks", id]] for an [id] that comes from a request body.
    Every stored key is a string ([create] writes under a UUID, [update] only
    under a key it has read), so a number or a boolean is a key part with no
    entry; Deno KV rejects a key part of any other type. *)
Inductive key : Type :=
| Key (id : string)
| NoEntry
| InvalidKey.

Definition key_of (id : jsval) : key :=
  match id with
  | JStr k => Key k
  | JNum _ | JBool _ => NoEntry
  | _ => InvalidKey
  end.

Definition invalid_key : exn := TypeError "Invalid key part".

(** [taskStore.get(id)] *)
Definition store_get (id : jsval) : M kvstore jsobj :=
  match key_of id with
  | Key k => TaskStore.get k
  | NoEntry => throw (AppError "任务不存在" 404)
  | InvalidKey => throw invalid_key
  end.

(** [taskStore.update(id, taskData)] *)
Definition store_update (id : jsval) (taskData : jsobj) (now : string)
  : M kvstore unit :=
  match key_of id with
  | Key k => TaskStore.update k taskData now
  | NoEntry => throw (AppError "任务不存在" 404)
  | InvalidKey => throw invalid_key
  end.

(** [taskStore.delete(id)] *)
Definition store_delete (id : jsval) : M kvstore unit :=
  match key_of id with
  | Key k => TaskStore.delete k
  | NoEntry => mret tt
  | InvalidKey => throw invalid_key
  end.

(** A value passed where main.ts declares a [string] parameter. Where the
    handlers use it, [validateTaskData] has returned, so the value is a
    string and the second case is not taken. *)
Definition as_string (what : string) (v : jsval) : exn + string :=
  match v with
  | JStr s => inr s
  | _ => inl (TypeError (what +:+ ".trim is not a function"))
  end.

(** The object literal that the POST and PUT handlers pass to the store:
    [{ name: .., repo: .., workflow: .., ref: .., cron: .., description: .. }] *)
Definition task_literal (name repo workflow ref cron description : jsval)
  : jsobj :=
  <[ "name" := name ]>
  (<[ "repo" := repo ]>
  (<[ "workflow" := workflow ]>
  (<[ "ref" := ref ]>
  (<[ "cron" := cron ]>
  (<[ "description" := description ]> ∅))))).

(** Its properties, evaluated in their order:
    [name: task.name.trim(), repo: task.repo.trim(),
     workflow: task.workflow.trim(), ref: task.ref || "main",
     cron: task.cron.trim(), description: task.description?.trim() || ""] *)
Definition task_record {S} (task : jsval) : M S jsobj :=
  name ← lift (get_prop task "name");
  name ← lift (call_trim "task.name" name);
  repo ← lift (get_prop task "repo");
  repo ← lift (call_trim "task.repo" repo);
  workflow ← lift (get_prop task "workflow");
  workflow ← lift (call_trim "task.workflow" workflow);
  ref ← lift (get_prop task "ref");
  cron ← lift (get_prop task "cron");
  cron ← lift (call_trim "task.cron" cron);
  description ← lift (get_prop task "description");
  description ← lift (call_trim_opt "task.description?" description);
  mret (task_literal name repo workflow (js_or ref (JStr "main")) cron
                     (js_or description (JStr ""))).

(** [router.post("/api/tasks", ...)], the operation createTask. [listing]
    is how the read of the entries inside [checkNameExists] goes; [id] and
    [now] are what [crypto.randomUUID()] and [new Date()] give inside
    [TaskStore.create]. *)
Definition createTask (task : jsval) (listing : kv_read) (id now : string)
  : M kvstore jsval :=
  lift (validateTaskData task) ;;
  name ← lift (get_prop task "name");
  name ← lift (as_string "name" name);
  taken ← TaskStore.checkNameExists listing name JNull;
  if (taken : bool) then throw (AppError "任务名称已存在" 400)
  else
    taskData ← task_record task;
    id ← TaskStore.create id now taskData;
    mret (JObj {[ "id" := JStr id ]}).

(** [router.put("/api/tasks", ...)], the operation updateTask. *)
Definition updateTask (task : jsval) (listing : kv_read) (now : string)
  : M kvstore jsval :=
  id ← lift (get_prop task "id");
  if negb (truthy id) then throw (AppError "缺少任务ID" 400)
  else
    lift (validateTaskData task) ;;
    name ← lift (get_prop task "name");
    name ← lift (as_string "name" name);
    taken ← TaskStore.checkNameExists listing name id;
    if (taken : bool) then throw (AppError "任务名称已存在" 400)
    else
      taskData ← task_record task;
      store_update id taskData now ;;
      mret (JObj {[ "success" := JBool true ]}).

(** [router.delete("/api/tasks", ...)], the operation deleteTask. *)
Definition deleteTask (body : jsval) : M kvstore jsval :=
  id ← lift (get_prop body "id");
  if negb (truthy id) then throw (AppError "缺少任务ID" 400)
  else
    store_delete id ;;
    mret (JObj {[ "success" := JBool true ]}).

(** [router.get("/api/tasks", ...)], the operation listTasks. *)
Definition listTasks (listing : kv_read) : M kvstore (list jsobj) :=
  TaskStore.list listing.

(** [router.post("/api/tasks/toggle", ...)]:
    [update(id, { ...task, enabled: enabled !== undefined ? enabled : !task.enabled })] *)
Definition toggleTask (body : jsval) (now : string) : M kvstore jsval :=
  id ← lift (get_prop body "id");
  enabled ← lift (get_prop body "enabled");
  task ← store_get id;
  store_update id
    (<[ "enabled" := if negb (strict_eq enabled JUndefined) then enabled
                     else JBool (negb (truthy (prop task "enabled"))) ]> task)
    now ;;
  mret (JObj {[ "success" := JBool true ]}).

(** ** Sequences of operations on the store *)

(** A call of the public contract that writes the store, with the values
    that the environment supplies to it. *)
Inductive operation : Type :=
| OpCreate (task : jsval) (listing : kv_read) (id now : string)
| OpUpdate (task : jsval) (listing : kv_read) (now : string)
| OpDelete (body : jsval)
| OpToggle (body : jsval) (now : string).

Definition handler (o : operation) : M kvstore jsval :=
  match o with
  | OpCreate task listing id now => createTask task listing id now
  | OpUpdate task listing now => updateTask task listing now
  | OpDelete body => deleteTask body
  | OpToggle body now => toggleTask body now
  end.

(** The operation reads the entries, if it does, without an error. *)
Definition listing_completes (o : operation) : Prop :=
  match o with
  | OpCreate _ listing _ _ | OpUpdate _ listing _ => listing = Completes
  | OpDelete _ | OpToggle _ _ => True
  end.

(** The store after the operations, the first of the list first. *)
Definition run_ops (ops : list operation) (kv : kvstore) : kvstore :=
  fold_left (fun kv o => snd (handler o kv)) ops kv.



Definition NotFoundError (e : exn) : Prop := e = AppError "任务不存在" 404.

(** The name of a stored task, trimmed. *)
Definition trimmed_name (t : jsobj) : option string :=
  match prop t "name" with
  | JStr n => Some (JsString.trim n)
  | _ => None
  end.

(** No two stored tasks hold the same trimmed name. *)
Definition unique_names (kv : kvstore) : Prop :=
  ∀ k1 k2 t1 t2 n,
    kv !! k1 = Some t1 → kv !! k2 = Some t2 →
    trimmed_name t1 = Some n → trimmed_name t2 = Some n → k1 = k2.

(** What the handlers keep true of every stored record: its name is a
    trimmed string, and it has no property [id] that would hide its key in
    [TaskStore.list]. *)
Definition stored_ok (kv : kvstore) : Prop :=
  ∀ k t, kv !! k = Some t →
         t !! "id" = None ∧ ∃ n, t !! "name" = Some (JStr n) ∧ JsString.trim n = n.

(** The fields that [validateTaskData] requires. *)
Definition required_fields : list string := [ "name"; "repo"; "workflow"; "cron" ].

(** A field of a request body is missing ([undefined] or [null]), empty, or
    only white space. *)
Definition blank (v : jsval) : Prop :=
  v = JUndefined ∨ v = JNull ∨ ∃ s, v = JStr s ∧ JsString.trim s = "".

(** A field of a request body is a string, or missing. *)
Definition string_or_missing (v : jsval) : Prop :=
  v = JUndefined ∨ v = JNull ∨ ∃ s, v = JStr s.

(** A field of a request body is blank, and a field is a string with more
    than white space in it. *)
Definition field_blank (task : jsval) (f : string) : Prop :=
  ∃ v, get_prop task f = inr v ∧ blank v.

Definition field_present (task : jsval) (f : string) : Prop :=
  ∃ s, get_prop task f = inr (JStr s) ∧ JsString.trim s ≠ "".

(** The body with which the routes that write answer. *)
Definition success_body : jsval := JObj {[ "success" := JBool true ]}.

(** What the create and update routes make true of a record they store: the
    four required fields are trimmed strings that are not empty, [ref] is
    truthy, [description] is a string, and there is no [id]. *)
Definition well_formed_task (t : jsobj) : Prop :=
  (∀ f, f ∈ required_fields →
        ∃ s, t !! f = Some (JStr s) ∧ JsString.trim s = s ∧ s ≠ "")
  ∧ (∃ r, t !! "ref" = Some r ∧ truthy r = true)
  ∧ (∃ d, t !! "description" = Some (JStr d))
  ∧ t !! "id" = None.

(** Bytes that are white space only: the encodings of white space code
    points, one after the other. *)
Definition white (l : list ascii) : Prop :=
  ∃ ws, Forall (λ w, w ∈ JsString.WhiteSpace) ws ∧ l = concat ws.

(** Every stored task is well formed. *)
Definition all_well_formed (kv : kvstore) : Prop :=
  ∀ k t, kv !! k = Some t → well_formed_task t.

(** ** Concrete inputs *)

(** The input of Scenario A of the specification. *)
Definition scenarioA : jsval :=
  JObj (<[ "name" := JStr "nightly-build" ]>
        (<[ "repo" := JStr "acme/app" ]>
        (<[ "workflow" := JStr "build.yml" ]>
        (<[ "ref" := JStr "main" ]>
        {[ "cron" := JStr "0 2 * * *" ]})))).


(** A store with one task, under the key ["id-1"]. *)
Definition one_task_store : kvstore :=
  {[ "id-1" := <[ "created_at" := JStr "2024-01-01T00:00:00.000Z" ]>
                 (task_literal (JStr "nightly-build") (JStr "acme/app")
                               (JStr "build.yml") (JStr "main")
                               (JStr "0 2 * * *") (JStr "")) ]}.

(** A store with two tasks; the second has been switched off by the toggle
    route. *)
Definition two_task_store : kvstore :=
  <[ "id-2" := <[ "enabled" := JBool false ]>
                 (<[ "created_at" := JStr "2024-01-02T00:00:00.000Z" ]>
                    (task_literal (JStr "weekly") (JStr "acme/app")
                                  (JStr "ci/test.yml") (JStr "main")
                                  (JStr "0 0 * * 0") (JStr ""))) ]>
    one_task_store.

(** ** The GitHub client *)

(** What [fetch] is called with: the URL and the [method], [body] and
    [headers] of its second argument. [body] is the value that
    [JSON.stringify] is applied to. *)
Record fetch_args : Type := {
  url : string;
  method : option string;
  body : option jsval;
  headers : list (string * string);
}.

Module Response.
(** What [fetch] resolves to. [json] is the outcome of [response.json()]:
    the parsed body, or the message of the error it rejects with. *)
Record t : Type := {
  status : Z;
  statusText : string;
  json : string + jsval;
}.

(** [response.ok] *)
Definition ok (r : t) : bool := (200 <=? status r) && (status r <=? 299).
End Response.

Inductive fetch_result : Type :=
| Rejected (message : string)
| Resolved (response : Response.t).

(** The normalized status that [getWorkflowStatus] returns. *)
Record workflow_status : Type := {
  last_run : jsval;
  status : string;
  run_id : jsval;
  message : string;
}.

(** The four results of [getWorkflowStatus] that carry no run. *)
Definition not_found_result : workflow_status :=
  {| last_run := JNull; status := "NOT_FOUND"; run_id := JNull;
     message := "工作流不存在" |}.

Definition disabled_result : workflow_status :=
  {| last_run := JNull; status := "DISABLED"; run_id := JNull;
     message := "工作流已禁用" |}.

Definition never_run_result : workflow_status :=
  {| last_run := JNull; status := "NEVER_RUN"; run_id := JNull;
     message := "工作流从未运行" |}.

Definition api_error_result (error : exn) : workflow_status :=
  {| last_run := JNull; status := "API_ERROR"; run_id := JNull;
     message := "API 错误: " +:+ error_message error |}.

(** The body with which the run route answers when the workflow is not
    active. *)
Definition workflow_disabled_body : jsval :=
  JObj (<[ "status" := JStr "disabled" ]>
        {[ "message" := JStr "工作流已禁用，请先启用后再试" ]}).

(** The messages that go with a status taken from a run. *)
Definition run_message (m : string) : Prop :=
  m = "正在运行" ∨ m = "执行成功" ∨ m = "已取消" ∨ m = "执行失败"
  ∨ ∃ c, m = "状态: " +:+ c.

Definition GITHUB_API_baseUrl : string := "https://api.github.com".

Definition GITHUB_API_headers (token : string) : list (string * string) :=
  [ ("Authorization", "Bearer " +:+ token);
    ("Accept", "application/vnd.github.v3+json");
    ("User-Agent", "Deno-App") ].

(** The fields [method] and [body] of the [options] argument of [request]. *)
Record options : Type := {
  opt_method : option string;
  opt_body : option jsval;
}.

Definition no_options : options := {| opt_method := None; opt_body := None |}.

(** The network as the program sees it: the state of the world outside, and
    the requests issued so far, oldest first. *)
Record net (W : Type) : Type := {
  world : W;
  sent : list fetch_args;
}.
Arguments world {W} _.
Arguments sent {W} _.

(** A timer that [new Cron(task.cron, callback)] registers: its pattern, and
    the task that the callback has captured. *)
Record timer : Type := {
  pattern : jsval;
  captured : jsobj;
}.

(** What [getRepoInfo] returns: [{ branches: [name], workflows: [{ name, path }] }]. *)
Record repo_info : Type := {
  branches : list jsval;
  workflows : list jsobj;
}.

(** [xs.map(f)] on an array: the results in order, or the first error that
    [f] throws. *)
Fixpoint map_array {A} (f : jsval -> exn + A) (xs : list jsval)
  : exn + list A :=
  match xs with
  | [] => inr []
  | x :: xs' =>
      match f x with
      | inl e => inl e
      | inr y =>
          match map_array f xs' with
          | inl e => inl e
          | inr ys => inr (y :: ys)
          end
      end
  end.

(** [v.map(f)]: only an array has the method. *)
Definition call_map {A} (what : string) (f : jsval -> exn + A) (v : jsval)
  : exn + list A :=
  match v with
  | JArr xs => map_array f xs
  | JUndefined =>
      inl (TypeError "Cannot read properties of undefined (reading 'map')")
  | JNull => inl (TypeError "Cannot read properties of null (reading 'map')")
  | _ => inl (TypeError (what +:+ ".map is not a function"))
  end.

(** [(w) => ({ name: w.name, path: w.path })] *)
Definition name_and_path (w : jsval) : exn + jsobj :=
  match get_prop w "name" with
  | inl e => inl e
  | inr name =>
      match get_prop w "path" with
      | inl e => inl e
      | inr path => inr (<[ "name" := name ]> {[ "path" := path ]})
      end
  end.

(** A request goes to the GitHub API with the headers of [token]. *)
Definition to_github (token : string) (req : fetch_args) : Prop :=
  (∃ rest, url req = "https://api.github.com/repos/" +:+ rest)
  ∧ headers req = GITHUB_API_headers token.

(** A request that reads: no method (so GET) and no body. *)
Definition is_get (req : fetch_args) : Prop :=
  method req = None ∧ body req = None.

Section GitHubAPI.

(** The world outside and the way it answers a request. *)
Context {W : Type}.
Variable fetch : W -> fetch_args -> fetch_result * W.

(** [this.token] *)
Variable token : string.

(** [String.prototype.toUpperCase], with the case mapping of the runtime. *)
Variable toUpperCase : string -> string.

(** The arguments of the [fetch] in [request]:
    [fetch(`${GITHUB_API.baseUrl}${endpoint}`,
           { ...options, headers: GITHUB_API.headers(this.token) })] *)
Definition fetch_call (endpoint : string) (o : options) : fetch_args :=
  {| url := GITHUB_API_baseUrl +:+ endpoint;
     method := opt_method o;
     body := opt_body o;
     headers := GITHUB_API_headers token |}.

Definition request (endpoint : string) (o : options) : M (net W) jsval :=
  fun n =>
    let req := fetch_call endpoint o in
    let '(res, w) := fetch (world n) req in
    let n' := {| world := w; sent := sent n ++ [req] |} in
    match res with
    | Rejected m => (inl (RuntimeError m), n')
    | Resolved response =>
        if negb (Response.ok response) then
          (inl (AppError ("GitHub API 请求失败: " +:+ Response.statusText response)
                         (Response.status response)), n')
        else if Response.status response =? 204 then (inr JNull, n')
        else match Response.json response with
             | inl m => (inl (RuntimeError m), n')
             | inr v => (inr v, n')
             end
    end.

(** [workflow.includes("/") ? workflow.split("/").pop() : workflow].
    An array has [includes] but no [split]; no other value that is not a
    string has [includes]. *)
Definition workflowPath (workflow : jsval) : exn + jsval :=
  match workflow with
  | JStr s =>
      inr (JStr (if JsString.includes_slash s then JsString.last_segment s
                 else s))
  | JArr l =>
      if existsb (strict_eq (JStr "/")) l
      then inl (TypeError "workflow.split is not a function")
      else inr workflow
  | JUndefined =>
      inl (TypeError "Cannot read properties of undefined (reading 'includes')")
  | JNull =>
      inl (TypeError "Cannot read properties of null (reading 'includes')")
  | _ => inl (TypeError "workflow.includes is not a function")
  end.

Definition getWorkflowInfo (repo workflow : jsval) : M (net W) jsval :=
  workflowPath ← lift (workflowPath workflow);
  request ("/repos/" +:+ to_string repo +:+ "/actions/workflows/"
           +:+ to_string workflowPath) no_options.

Definition triggerWorkflow (repo workflow ref : jsval) : M (net W) unit :=
  workflowPath ← lift (workflowPath workflow);
  request ("/repos/" +:+ to_string repo +:+ "/actions/workflows/"
           +:+ to_string workflowPath +:+ "/dispatches")
          {| opt_method := Some "POST";
             opt_body := Some (JObj {[ "ref" := ref ]}) |} ;;
  mret tt.

Definition cancelWorkflow (repo runId : jsval) : M (net W) unit :=
  request ("/repos/" +:+ to_string repo +:+ "/actions/runs/"
           +:+ to_string runId +:+ "/cancel")
          {| opt_method := Some "POST"; opt_body := None |} ;;
  mret tt.

(** [latestRun.conclusion.toUpperCase()] *)
Definition call_toUpperCase (v : jsval) : exn + string :=
  match v with
  | JStr s => inr (toUpperCase s)
  | JUndefined =>
      inl (TypeError "Cannot read properties of undefined (reading 'toUpperCase')")
  | JNull =>
      inl (TypeError "Cannot read properties of null (reading 'toUpperCase')")
  | _ => inl (TypeError "latestRun.conclusion.toUpperCase is not a function")
  end.

(** The [switch (latestRun.conclusion)] of [getWorkflowStatus]: the status
    and the message for a completed run. *)
Definition conclusion_status (conclusion : jsval) : exn + string * string :=
  if strict_eq conclusion (JStr "success") then inr ("SUCCESS", "执行成功")
  else if strict_eq conclusion (JStr "cancelled") then inr ("CANCELLED", "已取消")
  else if strict_eq conclusion (JStr "failure") then inr ("FAILURE", "执行失败")
  else
    match call_toUpperCase conclusion with
    | inl e => inl e
    | inr up => inr (up, "状态: " +:+ to_string conclusion)
    end.

(** The lookup of [getWorkflowStatus], with its [.catch]: a 404 becomes
    the sentinel [{ state: "not_found" }], any other error is thrown again. *)
Definition lookup_workflow (repo workflow : jsval) : M (net W) jsval :=
  catch
    (request ("/repos/" +:+ to_string repo +:+ "/actions/workflows/"
              +:+ to_string workflow) no_options)
    (fun error =>
       if strict_eq (error_status error) (JNum 404)
       then mret (JObj {[ "state" := JStr "not_found" ]})
       else throw error).

(** The statement [return] of [getWorkflowStatus] from
    [if (!data.workflow_runs?.length)] on: the status for the answer
    [data] of the runs request. It reads no state. *)
Definition latest_run_status {S} (data : jsval) : M S workflow_status :=
  workflow_runs ← lift (get_prop data "workflow_runs");
  len ← lift (get_prop_opt workflow_runs "length");
  if negb (truthy len) then mret never_run_result
  else
    latestRun ← lift (get_first workflow_runs);
    run_status ← lift (get_prop latestRun "status");
    '(status, message) ←
      (if strict_eq run_status (JStr "completed") then
         conclusion ← lift (get_prop latestRun "conclusion");
         lift (conclusion_status conclusion)
       else mret ("RUNNING", "正在运行"));
    created_at ← lift (get_prop latestRun "created_at");
    id ← lift (get_prop latestRun "id");
    mret {| last_run := created_at; status := status; run_id := id;
            message := message |}.

(** The [try] block of [getWorkflowStatus]. *)
Definition getWorkflowStatus_try (repo workflow : jsval)
  : M (net W) workflow_status :=
  workflowInfo ← lookup_workflow repo workflow;
  state ← lift (get_prop workflowInfo "state");
  if strict_eq state (JStr "not_found") then mret not_found_result
  else
    state ← lift (get_prop workflowInfo "state");
    if strict_eq state (JStr "disabled") then mret disabled_result
    else
      data ← request ("/repos/" +:+ to_string repo +:+ "/actions/workflows/"
                      +:+ to_string workflow +:+ "/runs?per_page=1")
                     no_options;
      latest_run_status data.

Definition getWorkflowStatus (repo workflow : jsval)
  : M (net W) workflow_status :=
  catch (getWorkflowStatus_try repo workflow)
        (fun error => mret (api_error_result error)).

(** [router.post("/api/tasks/run", ...)], the operation runTaskNow. *)
Definition runTaskNow (body : jsval) : M (kvstore * net W) jsval :=
  id ← lift (get_prop body "id");
  task ← on_fst (store_get id);
  workflowInfo ← on_snd (getWorkflowInfo (prop task "repo")
                                         (prop task "workflow"));
  state ← lift (get_prop workflowInfo "state");
  if negb (strict_eq state (JStr "active")) then
    mret workflow_disabled_body
  else
    on_snd (triggerWorkflow (prop task "repo") (prop task "workflow")
                            (prop task "ref")) ;;
    mret (JObj {[ "success" := JBool true ]}).

(** [router.post("/api/tasks/status", ...)] *)
Definition workflowStatus (body : jsval) : M (net W) workflow_status :=
  repo ← lift (get_prop body "repo");
  workflow ← lift (get_prop body "workflow");
  getWorkflowStatus repo workflow.

(** [getRepoInfo]. Both requests are issued, the one for the branches first,
    before either is awaited. When both fail, [Promise.all] rejects with the
    error of the one that fails first in time, which the environment decides:
    [branches_first] says whether it is the branches request. *)
Definition getRepoInfo (branches_first : bool) (repo : jsval)
  : M (net W) repo_info :=
  fun n =>
    let '(r1, n1) := request ("/repos/" +:+ to_string repo +:+ "/branches")
                             no_options n in
    let '(r2, n2) := request ("/repos/" +:+ to_string repo +:+ "/actions/workflows")
                             no_options n1 in
    match r1, r2 with
    | inl e1, inl e2 => (inl (if branches_first then e1 else e2), n2)
    | inl e1, inr _ => (inl e1, n2)
    | inr _, inl e2 => (inl e2, n2)
    | inr branches, inr workflows =>
        (list ← lift (get_prop_opt workflows "workflows");
         if negb (truthy branches) || negb (truthy list) then
           throw (AppError "无法获取仓库信息" 400)
         else
           names ← lift (call_map "branches" (fun b => get_prop b "name") branches);
           list ← lift (get_prop workflows "workflows");
           entries ← lift (call_map "workflows.workflows" name_and_path list);
           mret {| branches := names; workflows := entries |}) n2
    end.

(** [router.get("/api/tasks/repo-info", ...)]; [repo] is
    [searchParams.get("repo")], a string or [null]. *)
Definition repoInfo (branches_first : bool) (repo : jsval)
  : M (net W) repo_info :=
  if negb (truthy repo) then throw (AppError "缺少仓库参数" 400)
  else getRepoInfo branches_first repo.

(** [router.post("/api/tasks/cancel", ...)], the operation cancelRun. *)
Definition cancelRun (body : jsval) : M (net W) jsval :=
  repo ← lift (get_prop body "repo");
  run_id ← lift (get_prop body "run_id");
  cancelWorkflow repo run_id ;;
  mret (JObj {[ "success" := JBool true ]}).

(** ** Startup: one timer per stored task *)

(** Whether croner's [Cron] constructor accepts a pattern; it throws when
    it does not. *)
Variable Cron_accepts : jsval -> bool.

(** The callback of the timer registered for a task; it returns the line
    that it logs. *)
Definition fire (t : timer) : M (net W) string :=
  let task := captured t in
  catch
    (triggerWorkflow (prop task "repo") (prop task "workflow")
                     (prop task "ref") ;;
     mret ("✅ [" +:+ to_string (prop task "name") +:+ "] 定时任务执行成功"))
    (fun error =>
       mret ("❌ [" +:+ to_string (prop task "name") +:+ "] 定时任务执行失败: "
             +:+ error_message error)).

(** [for (const task of tasks) { new Cron(task.cron, async () => ...) }] *)
Fixpoint schedule (tasks : list jsobj) : M (list timer) unit :=
  match tasks with
  | [] => mret tt
  | task :: tasks' =>
      (if Cron_accepts (prop task "cron") then
         modify (fun timers =>
                   timers ++ [ {| pattern := prop task "cron";
                                  captured := task |} ])
       else throw (TypeError "CronPattern: invalid pattern")) ;;
      schedule tasks'
  end.

(** [startApp], up to [app.listen]. *)
Definition startApp (listing : kv_read) : M (kvstore * list timer) unit :=
  tasks ← on_fst (TaskStore.list listing);
  on_snd (schedule tasks).

End GitHubAPI.

(** ** A scripted upstream

    A world that is the list of the answers still to be given, one for each
    request in turn; when none is left, [fetch] rejects. *)
Definition scripted (w : list fetch_result) (req : fetch_args)
  : fetch_result * list fetch_result :=
  match w with
  | [] => (Rejected "error sending request", [])
  | r :: w' => (r, w')
  end.

(** An answer with a JSON body, and one without. *)
Definition answer (st : Z) (text : string) (v : jsval) : fetch_result :=
  Resolved {| Response.status := st; Response.statusText := text;
              Response.json := inr v |}.

Definition offline : net (list fetch_result) := {| world := []; sent := [] |}.

Definition online (w : list fetch_result) : net (list fetch_result) :=
  {| world := w; sent := [] |}.

(** A run that has completed with the conclusion [timed_out]. *)
Definition timed_out_run : jsobj :=
  <[ "status" := JStr "completed" ]>
  (<[ "conclusion" := JStr "timed_out" ]>
  (<[ "id" := JNum 42 ]>
  {[ "created_at" := JStr "2024-05-01T00:00:00Z" ]})).

(** Upper case of the letters a to z, for the examples. *)
Definition ascii_upper (c : ascii) : ascii :=
  let n := nat_of_ascii c in
  if ((97 <=? n) && (n <=? 122))%nat then ascii_of_nat (n - 32) else c.

Fixpoint upper (s : string) : string :=
  match s with
  | EmptyString => EmptyString
  | String c s' => String (ascii_upper c) (upper s')
  end.

(** * Properties *)

(** ** [trim] *)

Module JsStringFacts.
Import JsString.

Lemma drop_prefix_spec p s r : drop_prefix p s = Some r ↔ s = p ++ r.
Proof.
  revert s. induction p as [|a p IH]; intros [|b s]; simpl.
  - split; congruence.
  - split; congruence.
  - split; [congruence | discriminate].
  - destruct (Ascii.eqb_spec a b) as [->|Hne].
    + rewrite IH. split; congruence.
    + split; [discriminate | congruence].
Qed.

Lemma drop_any_Some table s r :
  drop_any table s = Some r → ∃ w, w ∈ table ∧ s = w ++ r.
Proof.
  induction table as [|w table IH]; simpl; [discriminate|].
  destruct (drop_prefix w s) as [r'|] eqn:E.
  - intros [= ->]. exists w. split; [left | by apply drop_prefix_spec].
  - intros H. destruct (IH H) as (w' & Hin & ->).
    exists w'. split; [by right | done].
Qed.

Lemma drop_any_None table s :
  drop_any table s = None ↔ ∀ w, w ∈ table → ¬ w `prefix_of` s.
Proof.
  induction table as [|w table IH]; simpl.
  - split; [intros _ w Hw; inversion Hw | done].
  - destruct (drop_prefix w s) as [r|] eqn:E.
    + split; [discriminate|]. intros H. exfalso.
      apply (H w); [left|]. exists r. by apply drop_prefix_spec.
    + rewrite IH. split.
      * intros H w' Hw'. apply elem_of_cons in Hw' as [->|Hw']; [|by apply H].
        intros [r Hr]. apply drop_prefix_spec in Hr. congruence.
      * intros H w' Hw'. apply H. by right.
Qed.

(** Once nothing is left to remove, [strip] is the identity. *)
Lemma strip_fixed table fuel s : drop_any table s = None → strip table fuel s = s.
Proof. destruct fuel; simpl; [done|]. by intros ->. Qed.

(** What [strip] returns is a suffix of its argument. *)
Lemma strip_suffix table fuel s : strip table fuel s `suffix_of` s.
Proof.
  revert s. induction fuel as [|fuel IH]; intros s; simpl; [done|].
  destruct (drop_any table s) as [r|] eqn:E; [|done].
  apply drop_any_Some in E as (w & _ & ->).
  etrans; [apply IH|]. by apply suffix_app_r.
Qed.

(** With enough fuel, nothing is left to remove. *)
Lemma strip_done table fuel s :
  Forall (λ w, w ≠ []) table → (length s ≤ fuel)%nat →
  drop_any table (strip table fuel s) = None.
Proof.
  intros Hne. revert s. induction fuel as [|fuel IH]; intros s Hlen; simpl.
  - destruct s; [|simpl in Hlen; lia].
    apply drop_any_None. intros w Hw [k Hk].
    symmetry in Hk. apply app_eq_nil in Hk as [-> _].
    rewrite Forall_forall in Hne. by apply (Hne []).
  - destruct (drop_any table s) as [r|] eqn:E; [|done].
    apply IH. apply drop_any_Some in E as (w & Hw & ->).
    rewrite Forall_forall in Hne. specialize (Hne w Hw).
    rewrite length_app in Hlen. destruct w; [done|]. simpl in Hlen. lia.
Qed.

Lemma WhiteSpace_nonempty : Forall (λ w, w ≠ []) WhiteSpace.
Proof. repeat constructor; discriminate. Qed.

Lemma WhiteSpace_rev_nonempty : Forall (λ w, w ≠ []) (map (@rev ascii) WhiteSpace).
Proof. repeat constructor; discriminate. Qed.

Lemma trimStart_done s : drop_any WhiteSpace (trimStart_bytes s) = None.
Proof. apply strip_done; [apply WhiteSpace_nonempty | done]. Qed.

(** [trimEnd] returns a prefix of its argument, with no white space at
    its end. *)
Lemma trimEnd_prefix s : trimEnd_bytes s `prefix_of` s.
Proof.
  unfold trimEnd_bytes.
  destruct (strip_suffix (map (@rev ascii) WhiteSpace) (length s) (rev s))
    as [k Hk].
  exists (rev k). apply (f_equal (@rev ascii)) in Hk.
  rewrite rev_involutive, rev_app_distr in Hk. done.
Qed.

Lemma trimEnd_done s :
  drop_any (map (@rev ascii) WhiteSpace) (rev (trimEnd_bytes s)) = None.
Proof.
  unfold trimEnd_bytes. rewrite rev_involutive.
  apply strip_done; [apply WhiteSpace_rev_nonempty | by rewrite length_rev].
Qed.

Lemma trim_bytes_idemp s : trim_bytes (trim_bytes s) = trim_bytes s.
Proof.
  unfold trim_bytes.
  set (t := trimStart_bytes s). set (u := trimEnd_bytes t).
  assert (Hu : trimStart_bytes u = u).
  { apply strip_fixed, drop_any_None. intros w Hw Hpre.
    pose proof (trimStart_done s) as Ht. fold t in Ht.
    rewrite drop_any_None in Ht. apply (Ht w Hw).
    etrans; [exact Hpre | apply trimEnd_prefix]. }
  rewrite Hu. unfold u at 1. unfold trimEnd_bytes at 1.
  rewrite strip_fixed; [apply rev_involutive | apply trimEnd_done].
Qed.

(** [s.trim().trim()] is [s.trim()]. *)
Lemma trim_idemp s : trim (trim s) = trim s.
Proof.
  unfold trim. rewrite String.list_ascii_of_string_of_list_ascii.
  by rewrite trim_bytes_idemp.
Qed.

End JsStringFacts.

(** ** Running computations *)

Lemma list_run (kv : kvstore) :
  TaskStore.list Completes kv
  = (inr (map (fun '(key1, value) => value ∪ {[ "id" := JStr key1 ]})
              (map_to_list kv)), kv).
Proof. reflexivity. Qed.

(** A read of the entries that throws is caught: [list] returns no task. *)
Lemma list_caught (kv : kvstore) error :
  TaskStore.list (Throws error) kv = (inr [], kv).
Proof. reflexivity. Qed.

Lemma get_run (kv : kvstore) id :
  TaskStore.get id kv
  = match kv !! id with
    | Some value => (inr value, kv)
    | None => (inl (AppError "任务不存在" 404), kv)
    end.
Proof. unfold TaskStore.get. unfold_M. by destruct (kv !! id). Qed.

Lemma update_run (kv : kvstore) id taskData now :
  TaskStore.update id taskData now kv
  = match kv !! id with
    | Some existing =>
        (inr tt, <[ id := <[ "updated_at" := JStr now ]> (taskData ∪ existing) ]> kv)
    | None => (inl (AppError "任务不存在" 404), kv)
    end.
Proof.
  unfold TaskStore.update. unfold mbind, M_bind. rewrite get_run.
  by destruct (kv !! id).
Qed.

(** [checkNameExists] reads the store and leaves it as it is; it answers
    [true] exactly when some stored task has the trimmed query as its name
    and an id other than [excludeId]. *)
Lemma checkNameExists_run (kv : kvstore) name excludeId :
  ∃ b, TaskStore.checkNameExists Completes name excludeId kv = (inr b, kv)
       ∧ (b = true ↔
          ∃ k v, kv !! k = Some v
                 ∧ strict_eq (prop v "name") (JStr (JsString.trim name)) = true
                 ∧ strict_eq (prop (v ∪ {[ "id" := JStr k ]}) "id") excludeId = false).
Proof.
  eexists. split; [reflexivity|].
  rewrite existsb_exists. split.
  - intros (t & Hin & Ht). apply in_map_iff in Hin as ([k v] & <- & Hin).
    apply list_elem_of_In, elem_of_map_to_list in Hin.
    apply andb_true_iff in Ht as [Hn Hi]. apply negb_true_iff in Hi.
    exists k, v. split_and!; [done| |done].
    revert Hn. unfold prop. by rewrite lookup_union_l.
  - intros (k & v & Hkv & Hn & Hi). exists (v ∪ {[ "id" := JStr k ]}). split.
    + apply in_map_iff. exists (k, v). split; [done|].
      by apply list_elem_of_In, elem_of_map_to_list.
    + apply andb_true_iff. split; [|by apply negb_true_iff].
      revert Hn. unfold prop. by rewrite lookup_union_l.
Qed.

(** When the read of the entries throws, every name is reported free. *)
Lemma checkNameExists_caught (kv : kvstore) error name excludeId :
  TaskStore.checkNameExists (Throws error) name excludeId kv = (inr false, kv).
Proof. reflexivity. Qed.

Lemma checkNameExists_total (kv : kvstore) listing name excludeId :
  ∃ b, TaskStore.checkNameExists listing name excludeId kv = (inr b, kv).
Proof. destruct listing; by eexists. Qed.

(** ** Validation *)

Lemma truthy_JStr s : truthy (JStr s) = false ↔ s = "".
Proof.
  simpl. rewrite negb_false_iff. split.
  - by intros ?%String.eqb_eq.
  - intros ->. reflexivity.
Qed.

(** A required field passes exactly when it is a string that is not blank. *)
Lemma require_field_ok task f m :
  require_field task f m = inr tt
  ↔ ∃ s, get_prop task f = inr (JStr s) ∧ JsString.trim s ≠ "".
Proof.
  unfold require_field. destruct (get_prop task f) as [e|v]; [naive_solver|].
  destruct v as [| |b|n|s|l|o]; simpl; try naive_solver.
  destruct (negb (String.eqb (JsString.trim s) "")) eqn:E.
  - apply negb_true_iff, String.eqb_neq in E. naive_solver.
  - apply negb_false_iff, String.eqb_eq in E. naive_solver.
Qed.

(** A required field that is blank is refused with its message. *)
Lemma require_field_blank task f m v :
  get_prop task f = inr v → blank v →
  require_field task f m = inl (AppError m 400).
Proof.
  unfold require_field. intros -> [->|[->|(s & -> & Hs)]]; simpl; try done.
  rewrite Hs. reflexivity.
Qed.


Lemma require_field_total task f m :
  require_field task f m = inr tt ∨ ∃ e, require_field task f m = inl e.
Proof. destruct (require_field task f m) as [e|[]]; eauto. Qed.

Lemma validateTaskData_ok task :
  validateTaskData task = inr tt
  ↔ (∃ s, get_prop task "name" = inr (JStr s) ∧ JsString.trim s ≠ "")
    ∧ (∃ s, get_prop task "repo" = inr (JStr s) ∧ JsString.trim s ≠ "")
    ∧ (∃ s, get_prop task "workflow" = inr (JStr s) ∧ JsString.trim s ≠ "")
    ∧ (∃ s, get_prop task "cron" = inr (JStr s) ∧ JsString.trim s ≠ "").
Proof.
  rewrite <- (require_field_ok task "name" "任务名称不能为空").
  rewrite <- (require_field_ok task "repo" "仓库地址不能为空").
  rewrite <- (require_field_ok task "workflow" "工作流不能为空").
  rewrite <- (require_field_ok task "cron" "cron表达式不能为空").
  unfold validateTaskData.
  destruct (require_field task "name" _) as [?|[]]; [by split; [|intros []]|].
  destruct (require_field task "repo" _) as [?|[]]; [by split; [|intros (_ & ? & _)]|].
  destruct (require_field task "workflow" _) as [?|[]];
    [by split; [|intros (_ & _ & ? & _)]|].
  split; [done | by intros (_ & _ & _ & ?)].
Qed.



(** ** The create and update handlers *)

(** A value that has one property read has them all read. *)
Lemma get_prop_defined task f v g :
  get_prop task f = inr v → ∃ v', get_prop task g = inr v'.
Proof. destruct task; simpl; try discriminate; eauto. Qed.

(** The record built from a request body that has passed validation. *)
Lemma task_record_run {S} task (s : S) n r w c :
  get_prop task "name" = inr (JStr n) →
  get_prop task "repo" = inr (JStr r) →
  get_prop task "workflow" = inr (JStr w) →
  get_prop task "cron" = inr (JStr c) →
  ∃ ref desc,
    get_prop task "ref" = inr ref ∧ get_prop task "description" = inr desc
    ∧ task_record task s
      = (match call_trim_opt "task.description?" desc with
         | inl e => inl e
         | inr d =>
             inr (task_literal (JStr (JsString.trim n)) (JStr (JsString.trim r))
                               (JStr (JsString.trim w)) (js_or ref (JStr "main"))
                               (JStr (JsString.trim c)) (js_or d (JStr "")))
         end, s).
Proof.
  intros Hn Hr Hw Hc.
  destruct (get_prop_defined task "name" _ "ref" Hn) as [ref Href].
  destruct (get_prop_defined task "name" _ "description" Hn) as [desc Hdesc].
  exists ref, desc. split_and!; [done..|].
  unfold task_record. unfold_M. rewrite Hn, Hr, Hw, Hc, Href, Hdesc. simpl.
  by destruct (call_trim_opt _ desc).
Qed.

(** The outcome of createTask, case by case. *)
Lemma createTask_invalid task listing id now (kv : kvstore) e :
  validateTaskData task = inl e →
  createTask task listing id now kv = (inl e, kv).
Proof. intros H. unfold createTask. unfold_M. by rewrite H. Qed.

Lemma createTask_valid task listing id now (kv : kvstore) n :
  validateTaskData task = inr tt → get_prop task "name" = inr (JStr n) →
  ∃ taken, TaskStore.checkNameExists listing n JNull kv = (inr taken, kv)
    ∧ createTask task listing id now kv
      = if (taken : bool) then (inl (AppError "任务名称已存在" 400), kv)
        else match task_record task kv with
             | (inl e, kv') => (inl e, kv')
             | (inr taskData, kv') =>
                 (inr (JObj {[ "id" := JStr id ]}),
                  <[ id := <[ "created_at" := JStr now ]> taskData ]> kv')
             end.
Proof.
  intros Hv Hn.
  destruct (checkNameExists_total kv listing n JNull) as (taken & Hc).
  exists taken. split; [done|].
  unfold createTask. unfold mbind, M_bind, lift. rewrite Hv, Hn.
  unfold as_string. cbv beta iota. rewrite Hc. destruct taken; [done|].
  destruct (task_record task kv) as [[e|d] kv']; done.
Qed.




(** ** [checkNameExists] *)

Lemma strict_eq_JStr v s : strict_eq v (JStr s) = true ↔ v = JStr s.
Proof.
  destruct v; simpl; try (split; [discriminate | congruence]).
  rewrite String.eqb_eq. split; congruence.
Qed.

(** C10. [checkNameExists] trims its argument and not the stored names: the
    answer for [name] is the answer for [name.trim()], and it is [true]
    exactly when a listed task has a name equal to the trimmed argument and
    an id other than [excludeId]. This holds however the read of the entries
    goes: [list()] returns the same tasks to both calls. *)
Theorem checkNameExists_trims_query (kv : kvstore) listing name excludeId :
  TaskStore.checkNameExists listing name excludeId kv
  = TaskStore.checkNameExists listing (JsString.trim name) excludeId kv
  ∧ ∃ tasks b,
      TaskStore.list listing kv = (inr tasks, kv)
      ∧ TaskStore.checkNameExists listing name excludeId kv = (inr b, kv)
      ∧ (b = true ↔
         ∃ t, t ∈ tasks ∧ prop t "name" = JStr (JsString.trim name)
              ∧ strict_eq (prop t "id") excludeId = false).
Proof.
  split.
  - unfold TaskStore.checkNameExists. by rewrite JsStringFacts.trim_idemp.
  - destruct listing as [|error].
    2:{ exists [], false. split_and!; [reflexivity..|]. split; [done|].
        intros (t & Hin & _). by apply elem_of_nil in Hin. }
    eexists _, _. split_and!; [reflexivity..|].
    rewrite existsb_exists. split.
    + intros (t & Hin & Ht). apply andb_true_iff in Ht as [Hn Hi].
      exists t. split_and!; [by apply list_elem_of_In | by apply strict_eq_JStr
                            | by apply negb_true_iff].
    + intros (t & Hin & Hn & Hi). exists t. split; [by apply list_elem_of_In|].
      apply andb_true_iff. split; [by apply strict_eq_JStr | by apply negb_true_iff].
Qed.

(** A stored name that is not trimmed is not found by its trimmed form. *)
Example checkNameExists_stored_untrimmed :
  let kv : kvstore := {[ "id-1" := {[ "name" := JStr " nightly " ]} ]} in
  TaskStore.checkNameExists Completes "nightly" JNull kv = (inr false, kv)
  ∧ TaskStore.checkNameExists Completes " nightly" JNull kv = (inr false, kv)
  ∧ TaskStore.checkNameExists Completes " nightly " JNull kv = (inr false, kv).
Proof. intros kv. split_and!; reflexivity. Qed.

(** ** [TaskStore.update] *)

(** C6. [update] of an id that is not in the store fails with the not-found
    error and leaves the store as it was; [update] of an id that is in the
    store writes, under that id only, the supplied fields over those of the
    existing record, with [updated_at] set anew. *)
Theorem update_missing_or_merge (kv : kvstore) id taskData now :
  (kv !! id = None →
   ∃ e, TaskStore.update id taskData now kv = (inl e, kv) ∧ NotFoundError e)
  ∧ (∀ existing, kv !! id = Some existing →
     ∃ kv' record,
       TaskStore.update id taskData now kv = (inr tt, kv')
       ∧ kv' !! id = Some record
       ∧ record !! "updated_at" = Some (JStr now)
       ∧ (∀ f, f ≠ "updated_at" →
               record !! f = match taskData !! f with
                             | Some v => Some v
                             | None => existing !! f
                             end)
       ∧ (∀ k, k ≠ id → kv' !! k = kv !! k)).
Proof.
  rewrite update_run. split.
  - intros ->. by eexists.
  - intros existing ->. eexists _, _. split_and!; [reflexivity | | | |].
    + apply lookup_insert_eq.
    + apply lookup_insert_eq.
    + intros f Hf. rewrite lookup_insert_ne by done.
      rewrite lookup_union. by destruct (taskData !! f), (existing !! f).
    + intros k Hk. by rewrite lookup_insert_ne.
Qed.

Lemma update_missing_or_merge_witness :
  (one_task_store : kvstore) !! "id-9" = None
  ∧ (∃ e, TaskStore.update "id-9" {[ "cron" := JStr "0 3 * * *" ]} "t1"
            one_task_store = (inl e, one_task_store) ∧ NotFoundError e)
  ∧ ∃ existing kv' record,
      (one_task_store : kvstore) !! "id-1" = Some existing
      ∧ TaskStore.update "id-1" {[ "cron" := JStr "0 3 * * *" ]} "t1"
          one_task_store = (inr tt, kv')
      ∧ kv' !! "id-1" = Some record
      ∧ record !! "updated_at" = Some (JStr "t1")
      ∧ record !! "cron" = Some (JStr "0 3 * * *")
      ∧ record !! "name" = existing !! "name".
Proof.
  assert (H0 : (one_task_store : kvstore) !! "id-9" = None) by reflexivity.
  split; [exact H0|]. split.
  - exact (proj1 (update_missing_or_merge one_task_store "id-9"
                    {[ "cron" := JStr "0 3 * * *" ]} "t1") H0).
  - set (existing := <[ "created_at" := JStr "2024-01-01T00:00:00.000Z" ]>
                       (task_literal (JStr "nightly-build") (JStr "acme/app")
                          (JStr "build.yml") (JStr "main") (JStr "0 2 * * *")
                          (JStr "")) : jsobj).
    assert (E : (one_task_store : kvstore) !! "id-1" = Some existing)
      by reflexivity.
    destruct (proj2 (update_missing_or_merge one_task_store "id-1"
                       {[ "cron" := JStr "0 3 * * *" ]} "t1") existing E)
      as (kv' & record & Hu & Hk & Ht & Hf & _).
    exists existing, kv', record. split_and!; try done.
    + by rewrite Hf.
    + by rewrite Hf.
Defined.

(** ** What the handlers write *)

(** createTask either throws and leaves the store as it was, or it has
    validated the body, found the name free, and written one record. *)
Lemma createTask_cases task listing id now (kv : kvstore) :
  (∃ e, createTask task listing id now kv = (inl e, kv))
  ∨ (∃ n r w c ref desc d,
       get_prop task "name" = inr (JStr n) ∧ JsString.trim n ≠ ""
       ∧ get_prop task "repo" = inr (JStr r)
       ∧ get_prop task "workflow" = inr (JStr w)
       ∧ get_prop task "cron" = inr (JStr c)
       ∧ get_prop task "ref" = inr ref
       ∧ get_prop task "description" = inr desc
       ∧ call_trim_opt "task.description?" desc = inr d
       ∧ TaskStore.checkNameExists listing n JNull kv = (inr false, kv)
       ∧ createTask task listing id now kv
         = (inr (JObj {[ "id" := JStr id ]}),
            <[ id := <[ "created_at" := JStr now ]>
                       (task_literal (JStr (JsString.trim n))
                          (JStr (JsString.trim r)) (JStr (JsString.trim w))
                          (js_or ref (JStr "main")) (JStr (JsString.trim c))
                          (js_or d (JStr ""))) ]> kv)).
Proof.
  destruct (validateTaskData task) as [e|[]] eqn:Hv.
  { left. exists e. by apply createTask_invalid. }
  pose proof Hv as Hok.
  apply validateTaskData_ok in Hok
    as ((n & Hn & Hne) & (r & Hr & _) & (w & Hw & _) & (c & Hc & _)).
  destruct (createTask_valid task listing id now kv n Hv Hn)
    as (taken & Hck & Hrun).
  destruct (task_record_run task kv n r w c Hn Hr Hw Hc)
    as (ref & desc & Href & Hdesc & Hrec).
  rewrite Hrun, Hrec. destruct taken; [left; by eexists|].
  destruct (call_trim_opt _ desc) as [e|d] eqn:Hd; [left; by eexists|].
  right. exists n, r, w, c, ref, desc, d. by split_and!.
Qed.

Lemma updateTask_cases task listing now (kv : kvstore) :
  (∃ e, updateTask task listing now kv = (inl e, kv))
  ∨ (∃ k existing n r w c ref desc d,
       get_prop task "id" = inr (JStr k) ∧ kv !! k = Some existing
       ∧ get_prop task "name" = inr (JStr n) ∧ JsString.trim n ≠ ""
       ∧ get_prop task "repo" = inr (JStr r)
       ∧ get_prop task "workflow" = inr (JStr w)
       ∧ get_prop task "cron" = inr (JStr c)
       ∧ get_prop task "ref" = inr ref
       ∧ get_prop task "description" = inr desc
       ∧ call_trim_opt "task.description?" desc = inr d
       ∧ TaskStore.checkNameExists listing n (JStr k) kv = (inr false, kv)
       ∧ updateTask task listing now kv
         = (inr (JObj {[ "success" := JBool true ]}),
            <[ k := <[ "updated_at" := JStr now ]>
                      (task_literal (JStr (JsString.trim n))
                         (JStr (JsString.trim r)) (JStr (JsString.trim w))
                         (js_or ref (JStr "main")) (JStr (JsString.trim c))
                         (js_or d (JStr "")) ∪ existing) ]> kv)).
Proof.
  unfold updateTask. unfold mbind, M_bind, lift.
  destruct (get_prop task "id") as [e|tid] eqn:Hid; [left; by eexists|].
  destruct (truthy tid) eqn:Htid; cbn [negb]; [|left; by eexists].
  destruct (validateTaskData task) as [e|[]] eqn:Hv; [left; by eexists|].
  pose proof Hv as Hok.
  apply validateTaskData_ok in Hok
    as ((n & Hn & Hne) & (r & Hr & _) & (w & Hw & _) & (c & Hc & _)).
  rewrite Hn. unfold as_string. cbv beta iota.
  destruct (checkNameExists_total kv listing n tid) as (taken & Hck).
  rewrite Hck. destruct taken; [left; by eexists|].
  destruct (task_record_run task kv n r w c Hn Hr Hw Hc)
    as (ref & desc & Href & Hdesc & Hrec).
  rewrite Hrec. destruct (call_trim_opt _ desc) as [e|d] eqn:Hd; [left; by eexists|].
  unfold store_update.
  destruct tid as [| |b|z|k|l|o]; simpl; try (left; by eexists).
  rewrite update_run. destruct (kv !! k) as [existing|] eqn:Hk; [|left; by eexists].
  right. exists k, existing, n, r, w, c, ref, desc, d. by split_and!.
Qed.

Lemma deleteTask_cases body (kv : kvstore) :
  (∃ r, deleteTask body kv = (r, kv))
  ∨ (∃ k, deleteTask body kv
          = (inr (JObj {[ "success" := JBool true ]}), delete k kv)).
Proof.
  unfold deleteTask. unfold mbind, M_bind, lift.
  destruct (get_prop body "id") as [e|id]; [left; by eexists|].
  destruct (truthy id); simpl; [|left; by eexists].
  unfold store_delete.
  destruct id as [| |b|z|k|l|o]; simpl; try (left; by eexists).
  right. by exists k.
Qed.

Lemma toggleTask_cases body now (kv : kvstore) :
  (∃ e, toggleTask body now kv = (inl e, kv))
  ∨ (∃ k task enabled,
       kv !! k = Some task
       ∧ toggleTask body now kv
         = (inr (JObj {[ "success" := JBool true ]}),
            <[ k := <[ "updated_at" := JStr now ]>
                      (<[ "enabled" := enabled ]> task ∪ task) ]> kv)).
Proof.
  unfold toggleTask. unfold mbind, M_bind, lift.
  destruct (get_prop body "id") as [e|id]; [left; by eexists|].
  destruct (get_prop body "enabled") as [e|enabled]; [left; by eexists|].
  unfold store_get, store_update.
  destruct id as [| |b|z|k|l|o]; simpl; try (left; by eexists).
  rewrite get_run. destruct (kv !! k) as [task|] eqn:Hk; [|left; by eexists].
  rewrite update_run, Hk. right. by eexists k, task, _.
Qed.

(** ** Uniqueness of names *)

Lemma trimmed_name_lookup (t : jsobj) n :
  t !! "name" = Some (JStr n) → trimmed_name t = Some (JsString.trim n).
Proof. unfold trimmed_name, prop. by intros ->. Qed.

(** In a store that the handlers have written, a name that
    [checkNameExists] reports free is the trimmed name of no task other than
    the excluded one. *)
Lemma name_free (kv : kvstore) n excludeId k t :
  stored_ok kv →
  TaskStore.checkNameExists Completes n excludeId kv = (inr false, kv) →
  kv !! k = Some t → JStr k ≠ excludeId →
  trimmed_name t ≠ Some (JsString.trim n).
Proof.
  intros Hok Hfree Hk Hex Hname.
  destruct (checkNameExists_run kv n excludeId) as (b & Hrun & Hb).
  rewrite Hrun in Hfree. injection Hfree as ->.
  assert (false = true) as Habs; [|discriminate].
  apply Hb. exists k, t. destruct (Hok k t Hk) as (Hid & m & Hm & Htrim).
  split_and!; [done| |].
  - apply strict_eq_JStr. unfold prop. rewrite Hm. simpl.
    rewrite (trimmed_name_lookup t m Hm), Htrim in Hname. congruence.
  - unfold prop. rewrite lookup_union_r by done. rewrite lookup_singleton_eq. simpl.
    destruct excludeId; try done. simpl.
    apply String.eqb_neq. congruence.
Qed.


Lemma stored_ok_insert (kv : kvstore) k (t : jsobj) n :
  stored_ok kv → t !! "id" = None → t !! "name" = Some (JStr (JsString.trim n)) →
  stored_ok (<[ k := t ]> kv).
Proof.
  intros Hok Hid Hn k' t'. rewrite lookup_insert. case_decide as Hk.
  - intros [= <-]. split; [done|]. eexists. split; [done|].
    apply JsStringFacts.trim_idemp.
  - apply Hok.
Qed.

(** Writing under [k] a record whose trimmed name no other task holds keeps
    the names unique. *)
Lemma unique_names_insert (kv : kvstore) k (t : jsobj) :
  unique_names kv →
  (∀ k' t', k' ≠ k → kv !! k' = Some t' → trimmed_name t' ≠ trimmed_name t) →
  unique_names (<[ k := t ]> kv).
Proof.
  intros Huniq Hfresh k1 k2 t1 t2 n.
  rewrite !lookup_insert. repeat case_decide; subst.
  - done.
  - intros [= <-] H2 Hn1 Hn2. exfalso.
    eapply (Hfresh k2 t2); [done..|congruence].
  - intros H1 [= <-] Hn1 Hn2. exfalso.
    eapply (Hfresh k1 t1); [done..|congruence].
  - apply Huniq.
Qed.

Lemma unique_names_delete (kv : kvstore) k :
  unique_names kv → unique_names (delete k kv).
Proof.
  intros Huniq k1 k2 t1 t2 n H1 H2.
  apply lookup_delete_Some in H1 as [_ H1].
  apply lookup_delete_Some in H2 as [_ H2]. by eapply Huniq.
Qed.

Lemma stored_ok_delete (kv : kvstore) k : stored_ok kv → stored_ok (delete k kv).
Proof. intros Hok k' t' [_ H]%lookup_delete_Some. by apply (Hok k'). Qed.

Lemma task_literal_lookup name repo workflow ref cron description :
  let t := task_literal name repo workflow ref cron description in
  t !! "name" = Some name ∧ t !! "ref" = Some ref
  ∧ t !! "id" = None ∧ t !! "enabled" = None.
Proof. by split_and!. Qed.

Lemma created_lookup now name repo workflow ref cron description :
  let t : jsobj := <[ "created_at" := JStr now ]>
                     (task_literal name repo workflow ref cron description) in
  t !! "name" = Some name ∧ t !! "ref" = Some ref
  ∧ t !! "id" = None ∧ t !! "enabled" = None.
Proof. by split_and!. Qed.

(** Every operation keeps the stored records as the handlers write them,
    however its read of the entries goes; an operation whose read completes
    keeps the names unique as well. *)
Lemma handler_preserves o (kv : kvstore) :
  stored_ok kv →
  stored_ok (snd (handler o kv))
  ∧ (listing_completes o → unique_names kv → unique_names (snd (handler o kv))).
Proof.
  intros Hok.
  destruct o as [task listing id now|task listing now|body|body now]; simpl.
  - destruct (createTask_cases task listing id now kv)
      as [[e ->]|(n & r & w & c & ref & desc & d & Hn & _ & _ & _ & _ & _ & _
                  & _ & Hfree & ->)]; [done|]. simpl. split.
    + eapply stored_ok_insert; [done| |]; apply created_lookup.
    + intros -> Huniq.
      apply unique_names_insert; [done|]. intros k' t' Hk' Hkv Heq.
      eapply (name_free kv n JNull k' t'); [done..|]. rewrite Heq.
      erewrite trimmed_name_lookup by apply created_lookup.
      by rewrite JsStringFacts.trim_idemp.
  - destruct (updateTask_cases task listing now kv)
      as [[e ->]|(k & existing & n & r & w & c & ref & desc & d & _ & Hk & Hn
                  & _ & _ & _ & _ & _ & _ & _ & Hfree & ->)]; [done|]. simpl.
    destruct (Hok k existing Hk) as (Hid & _).
    assert (Hname : ∀ x, (<[ "updated_at" := x ]>
              (task_literal (JStr (JsString.trim n)) (JStr (JsString.trim r))
                 (JStr (JsString.trim w)) (js_or ref (JStr "main"))
                 (JStr (JsString.trim c)) (js_or d (JStr "")) ∪ existing) : jsobj)
              !! "name" = Some (JStr (JsString.trim n))).
    { intros x. rewrite lookup_insert_ne by done. by apply lookup_union_Some_l. }
    split.
    + eapply stored_ok_insert; [done| |apply Hname].
      rewrite lookup_insert_ne by done. apply lookup_union_None. by split.
    + intros -> Huniq.
      apply unique_names_insert; [done|]. intros k' t' Hk' Hkv Heq.
      eapply (name_free kv n (JStr k) k' t'); [done..|congruence|].
      rewrite Heq. rewrite (trimmed_name_lookup _ _ (Hname _)).
      by rewrite JsStringFacts.trim_idemp.
  - destruct (deleteTask_cases body kv) as [[r ->]|[k ->]]; [done|]. simpl.
    split; [by apply stored_ok_delete | intros _; by apply unique_names_delete].
  - destruct (toggleTask_cases body now kv)
      as [[e ->]|(k & task & enabled & Hk & ->)]; [done|]. simpl.
    destruct (Hok k task Hk) as (Hid & m & Hm & Htrim).
    assert (Hname : (<[ "updated_at" := JStr now ]>
                       (<[ "enabled" := enabled ]> task ∪ task) : jsobj)
                    !! "name" = Some (JStr m)).
    { rewrite lookup_insert_ne by done. apply lookup_union_Some_l.
      by rewrite lookup_insert_ne. }
    split.
    + rewrite <- Htrim in Hname. eapply stored_ok_insert; [done| |apply Hname].
      rewrite lookup_insert_ne by done. apply lookup_union_None.
      split; [by rewrite lookup_insert_ne | done].
    + intros _ Huniq.
      apply unique_names_insert; [done|]. intros k' t' Hk' Hkv Heq.
      apply Hk'. eapply (Huniq k' k t' task); [done..| |].
      * rewrite Heq. by apply trimmed_name_lookup.
      * by apply trimmed_name_lookup.
Qed.

Lemma run_ops_stored_ok ops (kv : kvstore) :
  stored_ok kv → stored_ok (run_ops ops kv).
Proof.
  revert kv. induction ops as [|o ops IH]; intros kv Hok; simpl; [done|].
  by apply IH, handler_preserves.
Qed.

Lemma run_ops_preserves ops (kv : kvstore) :
  Forall listing_completes ops →
  stored_ok kv → unique_names kv →
  stored_ok (run_ops ops kv) ∧ unique_names (run_ops ops kv).
Proof.
  intros Hall. revert kv.
  induction Hall as [|o ops Ho _ IH]; intros kv Hok Huniq; simpl; [done|].
  destruct (handler_preserves o kv Hok) as [Hok' Huniq']. apply IH; auto.
Qed.

Lemma empty_store_ok : stored_ok ∅ ∧ unique_names ∅.
Proof. split; [intros k t | intros k1 k2 t1 t2 n]; by rewrite lookup_empty. Qed.





(** ** The record that createTask stores *)

(** The claim that the stored record has [enabled = true] fails on the
    input of Scenario A: the call succeeds, and the record that [list()]
    then returns under the new id has no [enabled] at all. *)
Lemma createTask_enabled_counterexample :
  ∃ kv' tasks,
    createTask scenarioA Completes "id-1" "2024-01-01T00:00:00.000Z" ∅
    = (inr (JObj {[ "id" := JStr "id-1" ]}), kv')
    ∧ listTasks Completes kv' = (inr tasks, kv')
    ∧ ¬ ∃ t, t ∈ tasks ∧ prop t "id" = JStr "id-1"
             ∧ prop t "enabled" = JBool true ∧ prop t "ref" = JStr "main".
Proof.
  set (record := <[ "created_at" := JStr "2024-01-01T00:00:00.000Z" ]>
                   (task_literal (JStr "nightly-build") (JStr "acme/app")
                      (JStr "build.yml") (JStr "main") (JStr "0 2 * * *")
                      (JStr "")) : jsobj).
  exists one_task_store, [ record ∪ {[ "id" := JStr "id-1" ]} ].
  split_and!; [reflexivity | reflexivity |].
  intros (t & Hin & _ & Hen & _).
  apply list_elem_of_singleton in Hin. subst t. discriminate Hen.
Qed.

(** C4, amended. A successful createTask returns the id it was given by the
    runtime, and [list()], when its read completes, then includes a record
    with that id whose [ref] is the input's [ref], or ["main"] when the input
    has none (or has a falsy one), and which has no [enabled] property,
    whatever the input says. *)
Theorem createTask_stores_ref_without_enabled
    task listing id now (kv kv' : kvstore) r :
  createTask task listing id now kv = (inr r, kv') →
  r = JObj {[ "id" := JStr id ]}
  ∧ ∃ ref tasks t,
      get_prop task "ref" = inr ref
      ∧ listTasks Completes kv' = (inr tasks, kv')
      ∧ t ∈ tasks
      ∧ prop t "id" = JStr id
      ∧ prop t "ref" = (if truthy ref then ref else JStr "main")
      ∧ t !! "enabled" = None.
Proof.
  intros Hrun.
  destruct (createTask_cases task listing id now kv)
    as [[e He]|(n & rp & w & c & ref & desc & d & _ & _ & _ & _ & _ & Href & _
                & _ & _ & Hok)]; [congruence|].
  rewrite Hok in Hrun. injection Hrun as <- <-. split; [done|].
  set (record := <[ "created_at" := JStr now ]> (task_literal _ _ _ _ _ _)).
  exists ref, (map (fun '(key1, value) => value ∪ {[ "id" := JStr key1 ]})
                   (map_to_list (<[ id := record ]> kv))),
         (record ∪ {[ "id" := JStr id ]}).
  destruct (created_lookup now (JStr (JsString.trim n)) (JStr (JsString.trim rp))
              (JStr (JsString.trim w)) (js_or ref (JStr "main"))
              (JStr (JsString.trim c)) (js_or d (JStr "")))
    as (_ & Hr & Hi & He).
  fold record in Hr, Hi, He. split_and!; [done | done | | | |].
  - apply list_elem_of_In, in_map_iff. exists (id, record). split; [done|].
    apply list_elem_of_In, elem_of_map_to_list, lookup_insert_eq.
  - unfold prop. rewrite lookup_union_r by done. by rewrite lookup_singleton_eq.
  - unfold prop. by rewrite (lookup_union_Some_l _ _ _ _ Hr).
  - apply lookup_union_None. split; [done|]. by rewrite lookup_singleton_ne.
Qed.

Lemma createTask_stores_ref_without_enabled_witness :
  ∃ kv' ref tasks t,
    createTask (JObj (<[ "enabled" := JBool true ]>
                        {[ "name" := JStr "weekly"; "repo" := JStr "acme/app";
                           "workflow" := JStr "test.yml";
                           "cron" := JStr "0 0 * * 0" ]}))
                 Completes "id-2" "2024-01-02T00:00:00.000Z" one_task_store
      = (inr (JObj {[ "id" := JStr "id-2" ]}), kv')
    ∧ get_prop (JObj (<[ "enabled" := JBool true ]>
                        {[ "name" := JStr "weekly"; "repo" := JStr "acme/app";
                           "workflow" := JStr "test.yml";
                           "cron" := JStr "0 0 * * 0" ]})) "ref" = inr ref
    ∧ ref = JUndefined
    ∧ listTasks Completes kv' = (inr tasks, kv')
    ∧ t ∈ tasks ∧ prop t "id" = JStr "id-2" ∧ prop t "ref" = JStr "main"
    ∧ t !! "enabled" = None.
Proof.
  set (task := JObj (<[ "enabled" := JBool true ]> _)).
  set (kv' := <[ "id-2" := <[ "created_at" := JStr "2024-01-02T00:00:00.000Z" ]>
                             (task_literal (JStr "weekly") (JStr "acme/app")
                                (JStr "test.yml") (JStr "main")
                                (JStr "0 0 * * 0") (JStr "")) ]>
                one_task_store : kvstore).
  assert (E : createTask task Completes "id-2" "2024-01-02T00:00:00.000Z"
                one_task_store
              = (inr (JObj {[ "id" := JStr "id-2" ]}), kv')) by reflexivity.
  assert (Href' : get_prop task "ref" = inr JUndefined) by reflexivity.
  destruct (createTask_stores_ref_without_enabled task Completes "id-2"
              "2024-01-02T00:00:00.000Z" one_task_store kv' _ E)
    as (_ & ref & tasks & t & Href & Hl & Hin & Hid & Hr & Hen).
  rewrite Href' in Href. injection Href as <-.
  exists kv', JUndefined, tasks, t. split_and!; try done.
Defined.

(** ** Requests *)

Section Upstream.

Context {W : Type}.
Variable fetch : W -> fetch_args -> fetch_result * W.
Variable token : string.
Variable toUpperCase : string -> string.

(** A call of [request] issues exactly one [fetch], whatever it answers. *)
Lemma request_sent endpoint o (n n' : net W) r :
  request fetch token endpoint o n = (r, n') →
  sent n' = sent n ++ [fetch_call token endpoint o].
Proof.
  unfold request. destruct (fetch _ _) as [res w].
  destruct res as [m|response]; [by intros [= <- <-]|].
  destruct (negb _); [by intros [= <- <-]|].
  destruct (_ =? _); [by intros [= <- <-]|].
  destruct (Response.json response); by intros [= <- <-].
Qed.

(** The final segment of an identifier has no separator in it. *)
Lemma split_slash_segments s :
  Forall (λ seg, JsString.includes_slash seg = false) (JsString.split_slash s).
Proof.
  induction s as [|c s IH]; simpl; [by repeat constructor|].
  destruct (Ascii.eqb c "/") eqn:Ec; [by constructor|].
  destruct (JsString.split_slash s) as [|seg segs].
  - repeat constructor. simpl. by rewrite Ec.
  - inversion IH as [|? ? Hseg Hsegs]; subst. constructor; [|done].
    simpl. by rewrite Ec.
Qed.

Lemma split_slash_nonempty s : JsString.split_slash s ≠ [].
Proof.
  destruct s as [|c s]; simpl; [done|].
  destruct (Ascii.eqb c "/"); [done|]. by destruct (JsString.split_slash s).
Qed.

Lemma last_segment_no_slash s :
  JsString.includes_slash (JsString.last_segment s) = false.
Proof.
  unfold JsString.last_segment.
  pose proof (split_slash_segments s) as Hall.
  pose proof (split_slash_nonempty s) as Hne.
  induction (JsString.split_slash s) as [|seg segs IH]; [done|].
  inversion Hall as [|? ? Hseg Hsegs]; subst.
  destruct segs as [|seg' segs]; [done|]. by apply IH.
Qed.

(** *** Which workflow the requests name *)

(** The identifier that [getWorkflowInfo] and [triggerWorkflow] put in the
    URL: the final segment of a path, a bare name as it is. *)
Lemma workflowPath_string w :
  workflowPath (JStr w)
  = inr (JStr (if JsString.includes_slash w then JsString.last_segment w
               else w)).
Proof. reflexivity. Qed.

Lemma getWorkflowInfo_sent repo w (n n' : net W) r :
  getWorkflowInfo fetch token repo (JStr w) n = (r, n') →
  sent n' = sent n
            ++ [fetch_call token
                  ("/repos/" +:+ to_string repo +:+ "/actions/workflows/"
                   +:+ (if JsString.includes_slash w
                        then JsString.last_segment w else w))
                  no_options].
Proof.
  unfold getWorkflowInfo. unfold mbind, M_bind, lift.
  rewrite workflowPath_string. cbv beta iota. apply request_sent.
Qed.

Lemma triggerWorkflow_sent repo w ref (n n' : net W) r :
  triggerWorkflow fetch token repo (JStr w) ref n = (r, n') →
  sent n' = sent n
            ++ [fetch_call token
                  ("/repos/" +:+ to_string repo +:+ "/actions/workflows/"
                   +:+ (if JsString.includes_slash w
                        then JsString.last_segment w else w)
                   +:+ "/dispatches")
                  {| opt_method := Some "POST";
                     opt_body := Some (JObj {[ "ref" := ref ]}) |}].
Proof.
  unfold triggerWorkflow. unfold mbind, M_bind, lift.
  rewrite workflowPath_string. cbv beta iota.
  destruct (request _ _ _ _ n) as [[e|v] n1] eqn:E; intros [= <- <-];
    by apply request_sent in E.
Qed.

(** [latest_run_status] reads and writes no state. *)
Lemma latest_run_status_pure {S} data (s : S) :
  latest_run_status toUpperCase data s
  = (fst (latest_run_status toUpperCase data tt), s).
Proof.
  unfold latest_run_status. unfold_M.
  destruct (get_prop data "workflow_runs") as [e|wr]; [done|].
  destruct (get_prop_opt wr "length") as [e|len]; [done|].
  destruct (negb (truthy len)); [done|].
  destruct (get_first wr) as [e|latest]; [done|].
  destruct (get_prop latest "status") as [e|rs]; [done|].
  destruct (strict_eq rs (JStr "completed")).
  - destruct (get_prop latest "conclusion") as [e|c]; [done|].
    destruct (conclusion_status toUpperCase c) as [e|[st msg]]; [done|].
    destruct (get_prop latest "created_at") as [e|ca]; [done|].
    by destruct (get_prop latest "id") as [e|id].
  - destruct (get_prop latest "created_at") as [e|ca]; [done|].
    by destruct (get_prop latest "id") as [e|id].
Qed.

(** The first request of the status probe names the identifier as it was
    given, separators included. *)
Lemma getWorkflowStatus_first_request repo workflow (n n' : net W) r :
  getWorkflowStatus fetch token toUpperCase repo workflow n = (r, n') →
  ∃ rest,
    sent n' = sent n
              ++ fetch_call token
                   ("/repos/" +:+ to_string repo +:+ "/actions/workflows/"
                    +:+ to_string workflow) no_options :: rest.
Proof.
  unfold getWorkflowStatus, getWorkflowStatus_try, lookup_workflow.
  unfold catch at 1 2. unfold mbind, M_bind.
  destruct (request _ _ _ _ n) as [[e|info] n1] eqn:E1;
    apply request_sent in E1.
  - destruct (strict_eq _ _); unfold mret, M_ret, throw, lift; simpl;
      intros [= <- <-]; by exists [].
  - unfold lift. destruct (get_prop info "state") as [e|state];
      [intros [= <- <-]; by exists []|].
    destruct (strict_eq state (JStr "not_found"));
      [intros [= <- <-]; by exists []|].
    destruct (strict_eq state (JStr "disabled"));
      [intros [= <- <-]; by exists []|].
    destruct (request _ _ _ _ n1) as [[e|data] n2] eqn:E2;
      apply request_sent in E2.
    + intros [= <- <-]. eexists [_]. rewrite E2, E1. by rewrite <- app_assoc.
    + rewrite latest_run_status_pure.
      destruct (fst _); intros [= <- <-]; eexists [_]; rewrite E2, E1;
        by rewrite <- app_assoc.
Qed.

(** C8. For the identifier [.github/workflows/build.yml] the workflow lookup
    and the dispatch request name the final segment [build.yml], and the
    lookup of the status probe names the whole path, with its separators. *)
Theorem status_probe_keeps_path (n : net W) :
  let repo := JStr "acme/app" in
  let workflow := JStr ".github/workflows/build.yml" in
  (∃ new, sent (snd (getWorkflowInfo fetch token repo workflow n)) = sent n ++ new
          ∧ url <$> new
            = ["https://api.github.com/repos/acme/app/actions/workflows/build.yml"])
  ∧ (∃ new, sent (snd (triggerWorkflow fetch token repo workflow (JStr "main") n))
            = sent n ++ new
            ∧ url <$> new
              = ["https://api.github.com/repos/acme/app/actions/workflows/build.yml/dispatches"])
  ∧ (∃ new, sent (snd (getWorkflowStatus fetch token toUpperCase repo workflow n))
            = sent n ++ new
            ∧ head (url <$> new)
              = Some "https://api.github.com/repos/acme/app/actions/workflows/.github/workflows/build.yml").
Proof.
  intros repo workflow. split_and!.
  - destruct (getWorkflowInfo fetch token repo workflow n) as [r n'] eqn:E.
    apply getWorkflowInfo_sent in E. eexists. split; [exact E | reflexivity].
  - destruct (triggerWorkflow fetch token repo workflow (JStr "main") n)
      as [r n'] eqn:E.
    apply triggerWorkflow_sent in E. eexists. split; [exact E | reflexivity].
  - destruct (getWorkflowStatus fetch token toUpperCase repo workflow n)
      as [r n'] eqn:E.
    apply getWorkflowStatus_first_request in E as [rest E].
    eexists. split; [exact E | reflexivity].
Qed.

(** *** The run route *)

(** C9. On the run route, when the lookup of the workflow fails, or answers
    with a state other than [active], the route issues no request after
    the lookup, so no dispatch: a failed lookup throws its error, a state
    that is not [active] gives the disabled answer. The store is as it
    was, and the one request that may have been issued has no method. *)
Theorem runTaskNow_no_dispatch_unless_active
    body id (kv : kvstore) task (n n1 : net W) info :
  get_prop body "id" = inr id →
  store_get id kv = (inr task, kv) →
  getWorkflowInfo fetch token (prop task "repo") (prop task "workflow") n
  = (info, n1) →
  ¬ (∃ v, info = inr v ∧ get_prop v "state" = inr (JStr "active")) →
  ∃ r, runTaskNow fetch token body (kv, n) = (r, (kv, n1))
       ∧ match info with
         | inl e => r = inl e
         | inr v => match get_prop v "state" with
                    | inl e => r = inl e
                    | inr _ => r = inr workflow_disabled_body
                    end
         end
       ∧ ∃ new, sent n1 = sent n ++ new
                ∧ Forall (λ req, method req = None) new.
Proof.
  intros Hid Hget Hinfo Hnot.
  unfold runTaskNow. unfold mbind, M_bind, lift, on_fst, on_snd.
  rewrite Hid. cbn [fst snd]. rewrite Hget. cbn [fst snd]. rewrite Hinfo.
  assert (Hsent : ∃ new, sent n1 = sent n ++ new
                         ∧ Forall (λ req, method req = None) new).
  { revert Hinfo. unfold getWorkflowInfo. unfold mbind, M_bind, lift.
    destruct (workflowPath (prop task "workflow")) as [e|wp].
    - intros [= <- <-]. exists []. by rewrite app_nil_r.
    - intros Hreq%request_sent. eexists. split; [exact Hreq|].
      by repeat constructor. }
  destruct info as [e|v]; [by eexists|].
  destruct (get_prop v "state") as [e|state] eqn:Hstate; [by eexists|].
  destruct (strict_eq state (JStr "active")) eqn:Hactive.
  - exfalso. apply Hnot. exists v. split; [done|].
    apply strict_eq_JStr in Hactive. by rewrite Hactive in Hstate.
  - by eexists.
Qed.

(** *** The status probe *)

(** The probe as a decision over the answers to its two requests. *)
Lemma getWorkflowStatus_run repo workflow (n : net W) :
  getWorkflowStatus fetch token toUpperCase repo workflow n
  = let '(r1, n1) :=
      request fetch token
        ("/repos/" +:+ to_string repo +:+ "/actions/workflows/"
         +:+ to_string workflow) no_options n in
    match r1 with
    | inl e =>
        if strict_eq (error_status e) (JNum 404) then (inr not_found_result, n1)
        else (inr (api_error_result e), n1)
    | inr info =>
        match get_prop info "state" with
        | inl e => (inr (api_error_result e), n1)
        | inr state =>
            if strict_eq state (JStr "not_found") then (inr not_found_result, n1)
            else if strict_eq state (JStr "disabled") then (inr disabled_result, n1)
            else
              let '(r2, n2) :=
                request fetch token
                  ("/repos/" +:+ to_string repo +:+ "/actions/workflows/"
                   +:+ to_string workflow +:+ "/runs?per_page=1") no_options n1 in
              match r2 with
              | inl e => (inr (api_error_result e), n2)
              | inr data =>
                  match fst (latest_run_status toUpperCase data tt) with
                  | inl e => (inr (api_error_result e), n2)
                  | inr res => (inr res, n2)
                  end
              end
        end
    end.
Proof.
  unfold getWorkflowStatus, getWorkflowStatus_try, lookup_workflow.
  unfold catch at 1 2. unfold mbind, M_bind.
  destruct (request _ _ _ _ n) as [[e|info] n1].
  - destruct (strict_eq (error_status e) (JNum 404)); reflexivity.
  - unfold lift. destruct (get_prop info "state") as [e|state]; [done|].
    destruct (strict_eq state (JStr "not_found")); [done|].
    destruct (strict_eq state (JStr "disabled")); [done|].
    destruct (request _ _ _ _ n1) as [[e|data] n2]; [done|].
    rewrite latest_run_status_pure. by destruct (fst _).
Qed.

(** The status of a run that has completed, by its conclusion. *)
Lemma conclusion_status_string c :
  conclusion_status toUpperCase (JStr c)
  = inr (if String.eqb c "success" then ("SUCCESS", "执行成功")
         else if String.eqb c "cancelled" then ("CANCELLED", "已取消")
         else if String.eqb c "failure" then ("FAILURE", "执行失败")
         else (toUpperCase c, "状态: " +:+ c)).
Proof.
  unfold conclusion_status. simpl.
  by repeat destruct (String.eqb c _).
Qed.

Lemma conclusion_status_message c st m :
  conclusion_status toUpperCase c = inr (st, m) → run_message m.
Proof.
  unfold conclusion_status, run_message.
  destruct (strict_eq c (JStr "success")); [intros [= <- <-]; tauto|].
  destruct (strict_eq c (JStr "cancelled")); [intros [= <- <-]; tauto|].
  destruct (strict_eq c (JStr "failure")); [intros [= <- <-]; tauto|].
  destruct (call_toUpperCase toUpperCase c); [done|].
  intros [= <- <-]. right; right; right; right. by eexists.
Qed.

(** What [latest_run_status] returns: the never-run result when the list
    of runs is missing or has a falsy length, and otherwise a status taken
    from the first run of the list. *)
Lemma latest_run_status_cases data :
  match fst (latest_run_status toUpperCase data tt) with
  | inl e => True
  | inr res =>
      ∃ wr len,
        get_prop data "workflow_runs" = inr wr
        ∧ get_prop_opt wr "length" = inr len
        ∧ if truthy len then
            ∃ latest run_status ca id,
              get_first wr = inr latest
              ∧ get_prop latest "status" = inr run_status
              ∧ get_prop latest "created_at" = inr ca
              ∧ get_prop latest "id" = inr id
              ∧ last_run res = ca ∧ run_id res = id
              ∧ run_message (message res)
              ∧ if strict_eq run_status (JStr "completed") then
                  ∃ c, get_prop latest "conclusion" = inr c
                       ∧ conclusion_status toUpperCase c
                         = inr (status res, message res)
                else status res = "RUNNING" ∧ message res = "正在运行"
          else res = never_run_result
  end.
Proof.
  unfold latest_run_status. unfold_M.
  destruct (get_prop data "workflow_runs") as [e|wr] eqn:Hwr; [done|].
  destruct (get_prop_opt wr "length") as [e|len] eqn:Hl; [done|].
  destruct (truthy len) eqn:Hlen; cbn [negb].
  2: { simpl. exists wr, len. rewrite Hlen. by split_and!. }
  destruct (get_first wr) as [e|latest] eqn:Hfirst; [done|].
  destruct (get_prop latest "status") as [e|rs] eqn:Hst; [done|].
  destruct (strict_eq rs (JStr "completed")) eqn:Hrs.
  - destruct (get_prop latest "conclusion") as [e|c] eqn:Hcn; [done|].
    destruct (conclusion_status toUpperCase c) as [e|[st msg]] eqn:Hc; [done|].
    destruct (get_prop latest "created_at") as [e|ca] eqn:Hca; [done|].
    destruct (get_prop latest "id") as [e|id] eqn:Hi; [done|]. simpl.
    exists wr, len. rewrite Hlen. split_and!; [done..|].
    exists latest, rs, ca, id. rewrite Hrs. split_and!; try done.
    + by eapply conclusion_status_message.
    + by exists c.
  - destruct (get_prop latest "created_at") as [e|ca] eqn:Hca; [done|].
    destruct (get_prop latest "id") as [e|id] eqn:Hi; [done|]. simpl.
    exists wr, len. rewrite Hlen. split_and!; [done..|].
    exists latest, rs, ca, id. rewrite Hrs. split_and!; try done.
    by left.
Qed.

(** A status taken from a run is none of the results that carry no run. *)
Lemma run_message_distinct res :
  run_message (message res) →
  res ≠ not_found_result ∧ res ≠ disabled_result ∧ res ≠ never_run_result
  ∧ ∀ e, res ≠ api_error_result e.
Proof.
  intros Hm. split_and!; [| | |intros e]; intros ->; cbv in Hm;
    destruct Hm as [Hm|[Hm|[Hm|[Hm|[c Hm]]]]]; discriminate.
Qed.

Lemma strict_eq_JStr_false v s : strict_eq v (JStr s) = false ↔ v ≠ JStr s.
Proof.
  rewrite <- strict_eq_JStr. by destruct (strict_eq v (JStr s)).
Qed.

(** C7. When the lookup has found the workflow enabled and the runs request
    has answered with a list whose first run is [run]: a run whose status
    is not [completed] gives RUNNING; a completed run gives SUCCESS,
    CANCELLED or FAILURE for the conclusions success, cancelled and
    failure, and for any other conclusion that conclusion in upper case;
    [run_id] and [last_run] are the [id] and [created_at] of the run. *)
Theorem latest_run_mapping
    repo workflow (n n1 n2 : net W) info state data run rest :
  request fetch token
    ("/repos/" +:+ to_string repo +:+ "/actions/workflows/"
     +:+ to_string workflow) no_options n = (inr info, n1) →
  get_prop info "state" = inr state →
  state ≠ JStr "not_found" → state ≠ JStr "disabled" →
  request fetch token
    ("/repos/" +:+ to_string repo +:+ "/actions/workflows/"
     +:+ to_string workflow +:+ "/runs?per_page=1") no_options n1
  = (inr data, n2) →
  get_prop data "workflow_runs" = inr (JArr (JObj run :: rest)) →
  (prop run "status" ≠ JStr "completed" →
   getWorkflowStatus fetch token toUpperCase repo workflow n
   = (inr {| last_run := prop run "created_at"; status := "RUNNING";
             run_id := prop run "id"; message := "正在运行" |}, n2))
  ∧ (∀ c, prop run "status" = JStr "completed" →
          prop run "conclusion" = JStr c →
          getWorkflowStatus fetch token toUpperCase repo workflow n
          = (inr {| last_run := prop run "created_at";
                    status := if String.eqb c "success" then "SUCCESS"
                              else if String.eqb c "cancelled" then "CANCELLED"
                              else if String.eqb c "failure" then "FAILURE"
                              else toUpperCase c;
                    run_id := prop run "id";
                    message := if String.eqb c "success" then "执行成功"
                               else if String.eqb c "cancelled" then "已取消"
                               else if String.eqb c "failure" then "执行失败"
                               else "状态: " +:+ c |}, n2)).
Proof.
  intros H1 Hstate Hnf%strict_eq_JStr_false Hdis%strict_eq_JStr_false H2 Hwr.
  rewrite getWorkflowStatus_run, H1, Hstate, Hnf, Hdis, H2.
  unfold latest_run_status. unfold_M. rewrite Hwr. cbn [get_prop_opt get_prop].
  replace (String.eqb "workflow_runs" "length") with false by reflexivity.
  replace (String.eqb "length" "length") with true by reflexivity.
  replace (truthy (JNum (Z.of_nat (length (JObj run :: rest))))) with true
    by (simpl; by destruct (length rest)).
  cbn [negb get_first head default id get_prop]. split.
  - intros Hrs%strict_eq_JStr_false. rewrite Hrs. reflexivity.
  - intros c Hrs Hc. rewrite Hrs. cbn [strict_eq].
    replace (String.eqb "completed" "completed") with true by reflexivity.
    rewrite Hc, conclusion_status_string.
    by repeat destruct (String.eqb c _).
Qed.

Lemma latest_never_run data wr len :
  get_prop data "workflow_runs" = inr wr →
  get_prop_opt wr "length" = inr len → truthy len = false →
  fst (latest_run_status toUpperCase data tt) = inr never_run_result.
Proof.
  intros Hwr Hl Hlen. unfold latest_run_status. unfold_M.
  by rewrite Hwr, Hl, Hlen.
Qed.

(** C2, amended. The status probe never throws: it always returns a
    result, and an error thrown inside its [try] block comes back as the
    API_ERROR result with the text of the error. With [r1] the outcome of
    the lookup request: the result is the NOT_FOUND result exactly when the
    lookup fails with status 404 or answers with the state [not_found]; it
    is the DISABLED result exactly when the lookup answers with the state
    [disabled], and then no further request is issued; it is the NEVER_RUN
    result exactly when the lookup answers with another state, the runs
    request answers, and its list of runs is missing or of falsy length;
    with a list of truthy length the result is either API_ERROR or taken
    from the first run of the list. *)
Theorem getWorkflowStatus_never_raises repo workflow (n : net W) :
  ∃ res n',
    getWorkflowStatus fetch token toUpperCase repo workflow n = (inr res, n')
    ∧ (∀ e n1, getWorkflowStatus_try fetch token toUpperCase repo workflow n
               = (inl e, n1) → res = api_error_result e ∧ n' = n1)
    ∧ ∀ r1 n1,
        request fetch token
          ("/repos/" +:+ to_string repo +:+ "/actions/workflows/"
           +:+ to_string workflow) no_options n = (r1, n1) →
        (res = not_found_result
         ↔ (∃ m, r1 = inl (AppError m 404))
           ∨ (∃ info, r1 = inr info
                      ∧ get_prop info "state" = inr (JStr "not_found")))
        ∧ (res = disabled_result
           ↔ ∃ info, r1 = inr info
                     ∧ get_prop info "state" = inr (JStr "disabled"))
        ∧ (res = disabled_result → n' = n1)
        ∧ (res = never_run_result
           ↔ ∃ info state data wr len,
               r1 = inr info ∧ get_prop info "state" = inr state
               ∧ state ≠ JStr "not_found" ∧ state ≠ JStr "disabled"
               ∧ request fetch token
                   ("/repos/" +:+ to_string repo +:+ "/actions/workflows/"
                    +:+ to_string workflow +:+ "/runs?per_page=1")
                   no_options n1 = (inr data, n')
               ∧ get_prop data "workflow_runs" = inr wr
               ∧ get_prop_opt wr "length" = inr len
               ∧ truthy len = false)
        ∧ (∀ info state data wr len,
             r1 = inr info → get_prop info "state" = inr state →
             state ≠ JStr "not_found" → state ≠ JStr "disabled" →
             request fetch token
               ("/repos/" +:+ to_string repo +:+ "/actions/workflows/"
                +:+ to_string workflow +:+ "/runs?per_page=1")
               no_options n1 = (inr data, n') →
             get_prop data "workflow_runs" = inr wr →
             get_prop_opt wr "length" = inr len → truthy len = true →
             (∃ e, res = api_error_result e)
             ∨ (∃ latest, get_first wr = inr latest
                          ∧ get_prop latest "created_at" = inr (last_run res)
                          ∧ get_prop latest "id" = inr (run_id res)
                          ∧ run_message (message res))).
Proof.
  destruct (getWorkflowStatus fetch token toUpperCase repo workflow n)
    as [[e|res] n'] eqn:E.
  { exfalso. revert E. unfold getWorkflowStatus, catch.
    by destruct (getWorkflowStatus_try _ _ _ _ _ n) as [[e'|res] n1]. }
  exists res, n'. split; [done|]. split.
  { intros e n1 Htry. revert E. unfold getWorkflowStatus, catch.
    rewrite Htry. unfold mret, M_ret. by intros [= <- <-]. }
  intros r1 n1 H1. rewrite getWorkflowStatus_run, H1 in E.
  destruct r1 as [e|info].
  - destruct (strict_eq (error_status e) (JNum 404)) eqn:H404;
      injection E as <- <-.
    + destruct e as [m st| |]; try discriminate. simpl in H404.
      apply Z.eqb_eq in H404 as ->.
      split_and!.
      * split; [intros _; left; by eexists | done].
      * split; [discriminate | by intros (? & ? & _)].
      * discriminate.
      * split; [discriminate | by intros (? & ? & ? & ? & ? & ? & _)].
      * by intros.
    + split_and!.
      * split; [discriminate|]. intros [[m [= ->]]|(? & ? & _)]; [|done].
        by simpl in H404.
      * split; [discriminate | by intros (? & ? & _)].
      * discriminate.
      * split; [discriminate | by intros (? & ? & ? & ? & ? & ? & _)].
      * by intros.
  - destruct (get_prop info "state") as [e|state] eqn:Hstate.
    { injection E as <- <-. split_and!.
      - split; [discriminate|]. by intros [[m [=]]|(? & [= <-] & ?)]; congruence.
      - split; [discriminate|]. intros (? & [= <-] & ?); congruence.
      - discriminate.
      - split; [discriminate|]. intros (? & ? & ? & ? & ? & [= <-] & ? & _); congruence.
      - intros ? ? ? ? ? [= <-] ?; congruence. }
    destruct (strict_eq state (JStr "not_found")) eqn:Hnf.
    { injection E as <- <-. apply strict_eq_JStr in Hnf as ->. split_and!.
      - split; [intros _; right; by eexists | done].
      - split; [discriminate|]. intros (? & [= <-] & ?); congruence.
      - discriminate.
      - split; [discriminate|]. intros (? & ? & ? & ? & ? & [= <-] & ? & ? & _); congruence.
      - intros ? ? ? ? ? [= <-] ? ?; congruence. }
    destruct (strict_eq state (JStr "disabled")) eqn:Hdis.
    { injection E as <- <-. apply strict_eq_JStr in Hdis as ->. split_and!.
      - split; [discriminate|]. intros [[m [=]]|(? & [= <-] & ?)]; congruence.
      - split; [intros _; by eexists | done].
      - done.
      - split; [discriminate|]. intros (? & ? & ? & ? & ? & [= <-] & ? & ? & ? & _); congruence.
      - intros ? ? ? ? ? [= <-] ? ? ?; congruence. }
    apply strict_eq_JStr_false in Hnf, Hdis.
    destruct (request _ _ _ _ n1) as [[e|data] n2] eqn:H2.
    { injection E as <- <-. split_and!.
      - split; [discriminate|]. intros [[m [=]]|(? & [= <-] & ?)]; congruence.
      - split; [discriminate|]. intros (? & [= <-] & ?); congruence.
      - discriminate.
      - split; [discriminate|]. by intros (? & ? & ? & ? & ? & _ & _ & _ & _ & ? & _).
      - by intros. }
    pose proof (latest_run_status_cases data) as Hcases.
    destruct (fst (latest_run_status toUpperCase data tt)) as [e|res'] eqn:Hlatest;
      injection E as <- <-.
    { split_and!.
      - split; [discriminate|]. intros [[m [=]]|(? & [= <-] & ?)]; congruence.
      - split; [discriminate|]. intros (? & [= <-] & ?); congruence.
      - discriminate.
      - split; [discriminate|].
        intros (? & ? & ? & wr & len & _ & _ & _ & _ & [= <-] & Hwr & Hl & Hlen).
        rewrite (latest_never_run data wr len Hwr Hl Hlen) in Hlatest. discriminate.
      - intros. left. by eexists. }
    destruct Hcases as (wr & len & Hwr & Hl & Hcases).
    destruct (truthy len) eqn:Hlen.
    + destruct Hcases as (latest & rs & ca & id & Hfirst & _ & Hca & Hid & <- & <-
                          & Hmsg & _).
      destruct (run_message_distinct res' Hmsg) as (Hd1 & Hd2 & Hd3 & Hd4).
      split_and!.
      * split; [done|]. intros [[m [=]]|(? & [= <-] & ?)]; congruence.
      * split; [done|]. intros (? & [= <-] & ?); congruence.
      * done.
      * split; [done|].
        intros (? & ? & ? & wr' & len' & _ & _ & _ & _ & [= <-] & Hwr' & Hl' & Hlen').
        congruence.
      * intros ? ? ? wr' len' _ _ _ _ [= <-] Hwr' Hl' Hlen'.
        assert (wr' = wr) as -> by congruence. right. by exists latest.
    + subst res'. split_and!.
      * split; [discriminate|]. intros [[m [=]]|(? & [= <-] & ?)]; congruence.
      * split; [discriminate|]. intros (? & [= <-] & ?); congruence.
      * discriminate.
      * split; [intros _|done]. by exists info, state, data, wr, len.
      * intros ? ? ? wr' len' _ _ _ _ [= <-] Hwr' Hl' Hlen'. congruence.
Qed.


(** *** Startup *)

Variable Cron_accepts : jsval -> bool.

(** The timer that the loop of [startApp] registers for a task. *)
Lemma schedule_all tasks timers :
  Forall (λ task, Cron_accepts (prop task "cron") = true) tasks →
  schedule Cron_accepts tasks timers
  = (inr tt,
     timers ++ map (λ task, {| pattern := prop task "cron"; captured := task |})
                   tasks).
Proof.
  intros Hall. revert timers.
  induction Hall as [|task tasks Hacc _ IH]; intros timers; simpl.
  - unfold mret, M_ret. by rewrite app_nil_r.
  - unfold mbind, M_bind. rewrite Hacc. unfold modify. rewrite IH.
    by rewrite <- app_assoc.
Qed.

(** What a timer does when it fires is the dispatch for the task it has
    captured; an error of the dispatch is logged and not thrown. *)
Lemma fire_triggers t (n : net W) :
  ∃ line, fire fetch token t n
          = (inr line,
             snd (triggerWorkflow fetch token (prop (captured t) "repo")
                    (prop (captured t) "workflow") (prop (captured t) "ref") n)).
Proof.
  unfold fire, catch. unfold mbind at 1. unfold M_bind at 1.
  destruct (triggerWorkflow _ _ _ _ _ n) as [[e|[]] n1]; by eexists.
Qed.

(** C3, amended. At startup no task is skipped: when croner accepts the
    cron pattern of every stored task, [startApp] registers one timer for
    each task that [list()] returns, whatever its [enabled] flag, and a
    timer that fires performs [triggerWorkflow(task.repo, task.workflow,
    task.ref)] for its task. *)
Theorem startApp_registers_every_task (kv : kvstore) listing tasks :
  TaskStore.list listing kv = (inr tasks, kv) →
  Forall (λ task, Cron_accepts (prop task "cron") = true) tasks →
  startApp Cron_accepts listing (kv, [])
  = (inr tt,
     (kv, map (λ task, {| pattern := prop task "cron"; captured := task |})
              tasks))
  ∧ ∀ task (n : net W),
      task ∈ tasks →
      ∃ line,
        fire fetch token {| pattern := prop task "cron"; captured := task |} n
        = (inr line,
           snd (triggerWorkflow fetch token (prop task "repo")
                  (prop task "workflow") (prop task "ref") n)).
Proof.
  intros Hlist Hall. split.
  - unfold startApp. unfold mbind, M_bind, on_fst, on_snd. cbn [fst snd].
    rewrite Hlist. cbn [fst snd]. by rewrite (schedule_all tasks []).
  - intros task n _. apply fire_triggers.
Qed.

End Upstream.

(** ** The properties on a scripted upstream *)

(** The claim that NOT_FOUND is returned only when the lookup reports 404
    fails when the lookup is answered with status 200 and a body whose state
    is the sentinel value: the probe returns the NOT_FOUND result, with
    [run_id] and [last_run] null. *)
Lemma getWorkflowStatus_sentinel_counterexample :
  let n := online [ answer 200 "OK" (JObj {[ "state" := JStr "not_found" ]}) ] in
  ∃ info n1 res n',
    request scripted "token"
      ("/repos/" +:+ to_string (JStr "acme/app") +:+ "/actions/workflows/"
       +:+ to_string (JStr "build.yml")) no_options n = (inr info, n1)
    ∧ getWorkflowStatus scripted "token" upper (JStr "acme/app")
        (JStr "build.yml") n = (inr res, n')
    ∧ status res = "NOT_FOUND" ∧ run_id res = JNull ∧ last_run res = JNull.
Proof. intros n. eexists _, _, _, _. split_and!; reflexivity. Qed.

Lemma getWorkflowStatus_never_raises_witness :
  let n := online [ answer 404 "Not Found" (JObj ∅) ] in
  ∃ n', getWorkflowStatus scripted "token" upper (JStr "acme/app")
          (JStr "build.yml") n = (inr not_found_result, n').
Proof.
  intros n.
  destruct (getWorkflowStatus_never_raises scripted "token" upper
              (JStr "acme/app") (JStr "build.yml") n)
    as (res & n' & Hrun & _ & Hclass).
  destruct (Hclass (inl (AppError "GitHub API 请求失败: Not Found" 404))
              {| world := []; sent := sent n ++ [fetch_call "token"
                   ("/repos/" +:+ to_string (JStr "acme/app")
                    +:+ "/actions/workflows/" +:+ to_string (JStr "build.yml"))
                   no_options] |} eq_refl) as (Hnf & _).
  exists n'. rewrite Hrun. f_equal. f_equal. apply Hnf. left. by eexists.
Defined.

Lemma latest_run_mapping_witness :
  let n := online [ answer 200 "OK" (JObj {[ "state" := JStr "active" ]});
                    answer 200 "OK"
                      (JObj {[ "workflow_runs" := JArr [JObj timed_out_run] ]}) ] in
  ∃ n2, getWorkflowStatus scripted "token" upper (JStr "acme/app")
          (JStr "build.yml") n
        = (inr {| last_run := JStr "2024-05-01T00:00:00Z"; status := "TIMED_OUT";
                  run_id := JNum 42; message := "状态: timed_out" |}, n2).
Proof.
  intros n.
  destruct (request scripted "token"
              ("/repos/" +:+ to_string (JStr "acme/app") +:+ "/actions/workflows/"
               +:+ to_string (JStr "build.yml")) no_options n)
    as [r1 n1] eqn:H1.
  destruct (request scripted "token"
              ("/repos/" +:+ to_string (JStr "acme/app") +:+ "/actions/workflows/"
               +:+ to_string (JStr "build.yml") +:+ "/runs?per_page=1")
              no_options n1)
    as [r2 n2] eqn:H2.
  vm_compute in H1. injection H1 as <- <-.
  vm_compute in H2. injection H2 as <- <-.
  eexists.
  refine (proj2 (latest_run_mapping scripted "token" upper (JStr "acme/app")
                   (JStr "build.yml") n _ _ _ (JStr "active") _ timed_out_run []
                   eq_refl eq_refl ltac:(discriminate) ltac:(discriminate)
                   eq_refl eq_refl) "timed_out" eq_refl eq_refl).
Defined.

Lemma runTaskNow_no_dispatch_unless_active_witness :
  let n := online [ answer 200 "OK" (JObj {[ "state" := JStr "disabled_manually" ]});
                    answer 204 "No Content" JNull ] in
  ∃ n1, runTaskNow scripted "token" (JObj {[ "id" := JStr "id-1" ]})
          (one_task_store, n)
        = (inr workflow_disabled_body, (one_task_store, n1))
        ∧ method <$> sent n1 = [None].
Proof.
  intros n.
  set (body := JObj {[ "id" := JStr "id-1" ]}).
  set (task := <[ "created_at" := JStr "2024-01-01T00:00:00.000Z" ]>
                 (task_literal (JStr "nightly-build") (JStr "acme/app")
                    (JStr "build.yml") (JStr "main") (JStr "0 2 * * *") (JStr ""))).
  assert (Hid : get_prop body "id" = inr (JStr "id-1"))
    by (vm_compute; reflexivity).
  assert (Hget : store_get (JStr "id-1") one_task_store = (inr task, one_task_store))
    by (vm_compute; reflexivity).
  destruct (getWorkflowInfo scripted "token" (prop task "repo")
              (prop task "workflow") n) as [info n1] eqn:Hinfo.
  assert (Hnot : ¬ (∃ v, info = inr v ∧ get_prop v "state" = inr (JStr "active"))).
  { vm_compute in Hinfo. injection Hinfo as <- <-.
    intros (v & [= <-] & Hstate). vm_compute in Hstate. discriminate. }
  destruct (runTaskNow_no_dispatch_unless_active scripted "token" body
              (JStr "id-1") one_task_store task n n1 info Hid Hget Hinfo Hnot)
    as (r & Hrun & Hr & _).
  exists n1. vm_compute in Hinfo. injection Hinfo as <- <-.
  split; [|reflexivity]. rewrite Hrun. vm_compute in Hr. by rewrite Hr.
Defined.

(** The claim that no timer is registered for a disabled task fails on a
    store whose second task has [enabled = false]: [startApp] registers a
    timer for it, and the timer dispatches its workflow when it fires. *)
Lemma startApp_disabled_counterexample :
  ∃ timers t n',
    startApp (λ _, true) Completes (two_task_store, [])
    = (inr tt, (two_task_store, timers))
    ∧ t ∈ timers
    ∧ prop (captured t) "enabled" = JBool false
    ∧ fire scripted "token" t (online [ answer 204 "No Content" JNull ])
      = (inr "✅ [weekly] 定时任务执行成功", n')
    ∧ url <$> sent n'
      = ["https://api.github.com/repos/acme/app/actions/workflows/test.yml/dispatches"].
Proof.
  eexists _, {| pattern := JStr "0 0 * * 0";
                captured := <[ "id" := JStr "id-2" ]> (default ∅ (two_task_store !! "id-2")) |}, _.
  split_and!; [vm_compute; reflexivity | | reflexivity | vm_compute; reflexivity
              | reflexivity].
  vm_compute. apply list_elem_of_further, list_elem_of_here.
Qed.

Lemma startApp_registers_every_task_witness :
  ∃ tasks,
    TaskStore.list Completes two_task_store = (inr tasks, two_task_store)
    ∧ length tasks = 2%nat
    ∧ startApp (λ _, true) Completes (two_task_store, [])
      = (inr tt,
         (two_task_store,
          map (λ task, {| pattern := prop task "cron"; captured := task |}) tasks)).
Proof.
  eexists. split; [apply list_run|]. split.
  - vm_compute. reflexivity.
  - refine (proj1 (startApp_registers_every_task scripted "token" (λ _, true)
                     two_task_store Completes _ (list_run _) _)).
    apply Forall_forall. reflexivity.
Defined.

(** * Further properties of the store and its routes *)

(** X1. deleteTask with a non-empty string id succeeds whether or not the
    id is stored: it removes the entry of that id and no other, after it
    [get] of the id fails with the not-found error, on a store without the
    id it changes nothing, and a second deleteTask of the same id changes
    nothing more. *)
Theorem deleteTask_removes_only_its_task body k (kv : kvstore) :
  get_prop body "id" = inr (JStr k) → k ≠ "" →
  deleteTask body kv = (inr success_body, delete k kv)
  ∧ TaskStore.get k (delete k kv)
    = (inl (AppError "任务不存在" 404), delete k kv)
  ∧ (∀ k', k' ≠ k → delete k kv !! k' = kv !! k')
  ∧ (kv !! k = None → delete k kv = kv)
  ∧ deleteTask body (delete k kv) = (inr success_body, delete k kv).
Proof.
  intros Hid Hk.
  assert (Hrun : ∀ kv0 : kvstore,
             deleteTask body kv0 = (inr success_body, delete k kv0)).
  { intros kv0. unfold deleteTask. unfold mbind, M_bind, lift. rewrite Hid.
    assert (truthy (JStr k) = true) as ->.
    { destruct (truthy (JStr k)) eqn:E; [done|]. by apply truthy_JStr in E. }
    reflexivity. }
  split_and!.
  - apply Hrun.
  - by rewrite get_run, lookup_delete_eq.
  - intros k' Hk'. by apply lookup_delete_ne.
  - apply delete_id.
  - by rewrite Hrun, delete_delete_eq.
Qed.

Lemma deleteTask_removes_only_its_task_witness :
  deleteTask (JObj {[ "id" := JStr "id-2" ]}) two_task_store
  = (inr success_body, delete "id-2" two_task_store)
  ∧ delete "id-2" two_task_store = one_task_store
  ∧ deleteTask (JObj {[ "id" := JStr "id-9" ]}) one_task_store
    = (inr success_body, one_task_store).
Proof.
  set (body2 := JObj {[ "id" := JStr "id-2" ]}).
  set (body9 := JObj {[ "id" := JStr "id-9" ]}).
  assert (H2 : get_prop body2 "id" = inr (JStr "id-2")) by (vm_compute; reflexivity).
  assert (H9 : get_prop body9 "id" = inr (JStr "id-9")) by (vm_compute; reflexivity).
  destruct (deleteTask_removes_only_its_task body2 "id-2" two_task_store H2
              ltac:(discriminate)) as (Hrun & _).
  destruct (deleteTask_removes_only_its_task body9 "id-9" one_task_store H9
              ltac:(discriminate)) as (Hrun9 & _ & _ & Hid & _).
  split_and!.
  - exact Hrun.
  - unfold two_task_store. apply delete_insert_id. reflexivity.
  - rewrite Hrun9. by rewrite Hid.
Defined.

(** X2. [create] returns the id it was given and writes the data with
    [created_at] under it, whether or not the id was taken: [get] of the id
    then returns that record, every other entry is as before, the store
    grows by one entry only when the id was free, and deleting a freshly
    created id gives back the store from before. *)
Theorem create_get_delete_round_trip (kv : kvstore) id now taskData :
  ∃ kv1,
    TaskStore.create id now taskData kv = (inr id, kv1)
    ∧ TaskStore.get id kv1
      = (inr (<[ "created_at" := JStr now ]> taskData), kv1)
    ∧ (∀ k, k ≠ id → kv1 !! k = kv !! k)
    ∧ size kv1 = (match kv !! id with Some _ => size kv | None => S (size kv) end)
    ∧ (kv !! id = None → TaskStore.delete id kv1 = (inr tt, kv)).
Proof.
  eexists. split; [reflexivity|]. split_and!.
  - by rewrite get_run, lookup_insert_eq.
  - intros k Hk. by apply lookup_insert_ne.
  - destruct (kv !! id) eqn:E.
    + by apply map_size_insert_Some.
    + by apply map_size_insert_None.
  - intros Hfree. unfold TaskStore.delete, modify. f_equal.
    rewrite delete_insert_eq. by apply delete_id.
Qed.

(** X3. In a store written by the routes from the empty store, however the
    reads of the entries went, [list()] returns one record for each stored
    entry when its own read completes: as many records as entries, with
    pairwise different ids that are exactly the stored keys, each record
    carrying the fields of the entry of its id. When its read throws, it
    catches the error and returns no record, whatever is stored. *)
Theorem list_one_record_per_key ops :
  let kv := run_ops ops ∅ in
  (∃ tasks,
     listTasks Completes kv = (inr tasks, kv)
     ∧ length tasks = size kv
     ∧ NoDup ((λ t, prop t "id") <$> tasks)
     ∧ (∀ k, JStr k ∈ (λ t, prop t "id") <$> tasks ↔ is_Some (kv !! k))
     ∧ (∀ t, t ∈ tasks →
             ∃ k v, kv !! k = Some v ∧ prop t "id" = JStr k
                    ∧ ∀ f, f ≠ "id" → t !! f = v !! f))
  ∧ ∀ error, listTasks (Throws error) kv = (inr [], kv).
Proof.
  intros kv. split; [|intros error; apply list_caught].
  pose proof (run_ops_stored_ok ops ∅ (proj1 empty_store_ok)) as Hok.
  fold kv in Hok.
  assert (Hid : ∀ k v, (k, v) ∈ map_to_list kv →
                       prop (v ∪ {[ "id" := JStr k ]}) "id" = JStr k).
  { intros k v Hin%elem_of_map_to_list. destruct (Hok k v Hin) as [Hnone _].
    unfold prop. rewrite lookup_union_r by done. by rewrite lookup_singleton_eq. }
  assert (Hids : (λ t, prop t "id") <$>
                   map (λ '(key1, value), value ∪ {[ "id" := JStr key1 ]})
                       (map_to_list kv)
                 = JStr <$> (map_to_list kv).*1).
  { revert Hid. generalize (map_to_list kv). intros l Hl.
    induction l as [|[k v] l IH]; [done|]. simpl. f_equal.
    - apply Hl. left.
    - apply IH. intros k' v' Hin. apply Hl. by right. }
  eexists. split; [apply list_run|]. split_and!.
  - rewrite length_map. apply length_map_to_list.
  - rewrite Hids. apply NoDup_fmap_2; [by intros ?? [=]|].
    apply NoDup_fst_map_to_list.
  - intros k. rewrite Hids. rewrite list_elem_of_fmap. split.
    + intros (k' & [= <-] & Hin). apply list_elem_of_fmap in Hin as ([k'' v] & -> & Hin).
      apply elem_of_map_to_list in Hin. by eexists.
    + intros [v Hv]. exists k. split; [done|]. apply list_elem_of_fmap.
      exists (k, v). split; [done|]. by apply elem_of_map_to_list.
  - intros t Hin. apply list_elem_of_In, in_map_iff in Hin as ([k v] & <- & Hin).
    apply list_elem_of_In in Hin. exists k, v. split_and!.
    + by apply elem_of_map_to_list.
    + by apply Hid.
    + intros f Hf. rewrite lookup_union. rewrite lookup_singleton_ne by done.
      by destruct (v !! f).
Qed.

(** X4. The toggle route on a stored task writes [enabled] and [updated_at]
    and leaves every other field of the task as it was: [enabled] becomes the
    value sent, or, when none is sent, the negation of the truthiness of the
    stored one, so that a task that never had the field becomes enabled; two
    toggles without a value leave [enabled] at the truthiness it started
    from. *)
Theorem toggleTask_sets_enabled body now (kv : kvstore) k task enabled :
  get_prop body "id" = inr (JStr k) →
  get_prop body "enabled" = inr enabled →
  kv !! k = Some task →
  ∃ record,
    toggleTask body now kv = (inr success_body, <[ k := record ]> kv)
    ∧ record !! "enabled"
      = Some (if strict_eq enabled JUndefined
              then JBool (negb (truthy (prop task "enabled"))) else enabled)
    ∧ record !! "updated_at" = Some (JStr now)
    ∧ (∀ f, f ≠ "enabled" → f ≠ "updated_at" → record !! f = task !! f)
    ∧ (enabled = JUndefined →
       ∀ now2, ∃ record2,
         toggleTask body now2 (<[ k := record ]> kv)
         = (inr success_body, <[ k := record2 ]> kv)
         ∧ record2 !! "enabled" = Some (JBool (truthy (prop task "enabled")))).
Proof.
  intros Hid Hen Hk.
  assert (Hrun : ∀ (kv0 : kvstore) t now0, kv0 !! k = Some t →
            toggleTask body now0 kv0
            = (inr success_body,
               <[ k := <[ "updated_at" := JStr now0 ]>
                         (<[ "enabled" := if negb (strict_eq enabled JUndefined)
                                          then enabled
                                          else JBool (negb (truthy (prop t "enabled"))) ]>
                            t ∪ t) ]> kv0)).
  { intros kv0 t now0 Ht. unfold toggleTask. unfold mbind, M_bind, lift.
    rewrite Hid, Hen. unfold store_get, store_update. cbn [key_of].
    rewrite get_run, Ht, update_run, Ht. reflexivity. }
  eexists. split; [by apply Hrun|]. split_and!.
  - rewrite lookup_insert_ne by done.
    erewrite lookup_union_Some_l by apply lookup_insert_eq.
    by destruct (strict_eq enabled JUndefined).
  - apply lookup_insert_eq.
  - intros f Hf1 Hf2. rewrite lookup_insert_ne by done. rewrite lookup_union.
    rewrite lookup_insert_ne by done. by destruct (task !! f).
  - intros -> now2. eexists. split.
    + rewrite (Hrun _ _ now2 (lookup_insert_eq _ _ _)).
      by rewrite insert_insert_eq.
    + rewrite lookup_insert_ne by done.
      erewrite lookup_union_Some_l by apply lookup_insert_eq.
      cbn [strict_eq negb]. do 2 f_equal. unfold prop at 1.
      rewrite lookup_insert_ne by done.
      erewrite lookup_union_Some_l by apply lookup_insert_eq.
      cbn [default id strict_eq negb truthy]. by rewrite negb_involutive.
Qed.

Lemma toggleTask_sets_enabled_witness :
  ∃ record,
    toggleTask (JObj {[ "id" := JStr "id-1" ]}) "2024-02-01T00:00:00.000Z"
      one_task_store
    = (inr success_body, <[ "id-1" := record ]> one_task_store)
    ∧ record !! "enabled" = Some (JBool true)
    ∧ record !! "name" = Some (JStr "nightly-build").
Proof.
  set (body := JObj {[ "id" := JStr "id-1" ]}).
  set (task := <[ "created_at" := JStr "2024-01-01T00:00:00.000Z" ]>
                 (task_literal (JStr "nightly-build") (JStr "acme/app")
                    (JStr "build.yml") (JStr "main") (JStr "0 2 * * *") (JStr ""))).
  assert (Hid : get_prop body "id" = inr (JStr "id-1")) by reflexivity.
  assert (Hen : get_prop body "enabled" = inr JUndefined) by reflexivity.
  assert (Hk : (one_task_store : kvstore) !! "id-1" = Some task) by reflexivity.
  destruct (toggleTask_sets_enabled body "2024-02-01T00:00:00.000Z"
              one_task_store "id-1" task JUndefined Hid Hen Hk)
    as (record & Hrun & Henabled & _ & Hrest & _).
  exists record. split_and!; [exact Hrun | |].
  - rewrite Henabled. reflexivity.
  - rewrite Hrest by done. reflexivity.
Defined.

(** X6. [validateTaskData] accepts a body exactly when name, repo, workflow
    and cron are all strings with more than white space in them. It checks
    them in that order and stops at the first that is blank: the error names
    that field, and the fields after it are not looked at. *)
Theorem validateTaskData_first_blank_decides task :
  (validateTaskData task = inr tt
   ↔ ∀ f, f ∈ required_fields → field_present task f)
  ∧ (field_blank task "name" →
     validateTaskData task = inl (AppError "任务名称不能为空" 400))
  ∧ (field_present task "name" → field_blank task "repo" →
     validateTaskData task = inl (AppError "仓库地址不能为空" 400))
  ∧ (field_present task "name" → field_present task "repo" →
     field_blank task "workflow" →
     validateTaskData task = inl (AppError "工作流不能为空" 400))
  ∧ (field_present task "name" → field_present task "repo" →
     field_present task "workflow" → field_blank task "cron" →
     validateTaskData task = inl (AppError "cron表达式不能为空" 400)).
Proof.
  assert (Hp : ∀ f m, field_present task f → require_field task f m = inr tt).
  { intros f m. apply require_field_ok. }
  assert (Hb : ∀ f m, field_blank task f →
                      require_field task f m = inl (AppError m 400)).
  { intros f m (v & Hv & Hbl). by eapply require_field_blank. }
  split_and!.
  - rewrite validateTaskData_ok. unfold field_present, required_fields. split.
    + intros (H1 & H2 & H3 & H4) f Hf.
      rewrite !elem_of_cons, elem_of_nil in Hf.
      destruct Hf as [->|[->|[->|[->|[]]]]]; assumption.
    + intros H. split_and!; apply H; set_solver.
  - intros H1. unfold validateTaskData. by rewrite (Hb _ _ H1).
  - intros H1 H2. unfold validateTaskData. by rewrite (Hp _ _ H1), (Hb _ _ H2).
  - intros H1 H2 H3. unfold validateTaskData.
    by rewrite (Hp _ _ H1), (Hp _ _ H2), (Hb _ _ H3).
  - intros H1 H2 H3 H4. unfold validateTaskData.
    by rewrite (Hp _ _ H1), (Hp _ _ H2), (Hp _ _ H3), (Hb _ _ H4).
Qed.

(** A body with a blank repo and a cron that is not even a string is refused
    for the repo: the cron is never reached. *)
Example validateTaskData_stops_at_repo :
  validateTaskData (JObj (<[ "name" := JStr "nightly" ]>
                          (<[ "repo" := JStr "  " ]>
                          {[ "cron" := JNum 5 ]})))
  = inl (AppError "仓库地址不能为空" 400).
Proof. vm_compute. reflexivity. Qed.

Lemma call_trim_opt_typed what d :
  string_or_missing d →
  ∃ s, call_trim_opt what d = inr s ∧ ∃ x, js_or s (JStr "") = JStr x.
Proof.
  intros [->|[->|[x ->]]]; simpl; [by eexists; split; [|exists ""]..|].
  eexists. split; [done|]. unfold js_or.
  destruct (truthy (JStr (JsString.trim x))); by eexists.
Qed.

(** X5. A stored task can be updated under the name it already has: in a
    store written by the routes with every read of the entries completing,
    updateTask for a stored non-empty id, with valid fields and a name whose
    trimmed form is the task's own, succeeds, however its own read goes; the
    new record has the fields sent and [updated_at], and keeps the
    [created_at] and [enabled] of the old one. *)
Theorem updateTask_may_keep_its_name ops task listing now k t n :
  Forall listing_completes ops →
  let kv := run_ops ops ∅ in
  kv !! k = Some t → k ≠ "" →
  get_prop task "id" = inr (JStr k) →
  validateTaskData task = inr tt →
  get_prop task "name" = inr (JStr n) →
  trimmed_name t = Some (JsString.trim n) →
  (∃ d, get_prop task "description" = inr d ∧ string_or_missing d) →
  ∃ record,
    updateTask task listing now kv = (inr success_body, <[ k := record ]> kv)
    ∧ record !! "name" = Some (JStr (JsString.trim n))
    ∧ record !! "updated_at" = Some (JStr now)
    ∧ record !! "created_at" = t !! "created_at"
    ∧ record !! "enabled" = t !! "enabled".
Proof.
  intros Hall kv Hk Hne Hid Hv Hn Hname (d & Hd & Hty).
  destruct (run_ops_preserves ops ∅ Hall) as [Hok Huniq];
    [apply empty_store_ok..|].
  fold kv in Hok, Huniq.
  assert (Hfree : TaskStore.checkNameExists listing n (JStr k) kv
                  = (inr false, kv)).
  { destruct listing as [|error]; [|apply checkNameExists_caught].
    destruct (checkNameExists_run kv n (JStr k)) as ([] & Hrun & Hb); [|done].
    exfalso. destruct (proj1 Hb eq_refl) as (k' & v & Hk' & Hvn & Hvi).
    destruct (Hok k' v Hk') as (Hnoid & m & Hm & Htrim).
    apply strict_eq_JStr in Hvn.
    assert (k' = k) as ->.
    { apply (Huniq k' k v t (JsString.trim n)); [done..| |done].
      unfold trimmed_name. rewrite Hvn. by rewrite JsStringFacts.trim_idemp. }
    revert Hvi. unfold prop. rewrite lookup_union_r by done.
    rewrite lookup_singleton_eq. simpl. by rewrite String.eqb_refl. }
  pose proof Hv as Hfields.
  apply validateTaskData_ok in Hfields
    as ((n' & Hn' & _) & (r & Hr & _) & (w & Hw & _) & (c & Hc & _)).
  rewrite Hn in Hn'. injection Hn' as <-.
  destruct (task_record_run task kv n r w c Hn Hr Hw Hc)
    as (ref & desc & Href & Hdesc & Hrec).
  rewrite Hd in Hdesc. injection Hdesc as <-.
  destruct (call_trim_opt_typed "task.description?" d Hty) as (s & Hs & _).
  rewrite Hs in Hrec.
  eexists. split.
  - unfold updateTask. unfold mbind, M_bind, lift. rewrite Hid.
    assert (truthy (JStr k) = true) as ->.
    { destruct (truthy (JStr k)) eqn:E; [done|]. by apply truthy_JStr in E. }
    cbn [negb]. rewrite Hv, Hn. unfold as_string. cbv beta iota.
    rewrite Hfree, Hrec. unfold store_update. cbn [key_of].
    rewrite update_run, Hk. reflexivity.
  - split_and!.
    + rewrite lookup_insert_ne by done. by apply lookup_union_Some_l.
    + apply lookup_insert_eq.
    + rewrite lookup_insert_ne by done. by rewrite lookup_union_r.
    + rewrite lookup_insert_ne by done. by rewrite lookup_union_r.
Qed.

Lemma updateTask_may_keep_its_name_witness :
  let ops := [ OpCreate scenarioA Completes "id-1" "2024-01-01T00:00:00.000Z";
               OpToggle (JObj (<[ "id" := JStr "id-1" ]>
                               {[ "enabled" := JBool false ]}))
                        "2024-01-02T00:00:00.000Z" ] in
  let task := JObj (<[ "id" := JStr "id-1" ]>
                    (<[ "name" := JStr " nightly-build" ]>
                    (<[ "repo" := JStr "acme/app" ]>
                    (<[ "workflow" := JStr "ci/build.yml" ]>
                    {[ "cron" := JStr "0 5 * * *" ]})))) in
  ∃ t record,
    Forall listing_completes ops
    ∧ run_ops ops ∅ !! "id-1" = Some t
    ∧ updateTask task Completes "2024-01-03T00:00:00.000Z" (run_ops ops ∅)
      = (inr success_body, <[ "id-1" := record ]> (run_ops ops ∅))
    ∧ record !! "name" = Some (JStr (JsString.trim " nightly-build"))
    ∧ record !! "created_at" = t !! "created_at"
    ∧ record !! "enabled" = t !! "enabled"
    ∧ t !! "enabled" = Some (JBool false).
Proof.
  intros ops task.
  assert (Hall : Forall listing_completes ops) by (by repeat constructor).
  destruct (run_ops ops ∅ !! "id-1") as [t|] eqn:Hk; [|by exfalso].
  assert (Hid : get_prop task "id" = inr (JStr "id-1")) by reflexivity.
  assert (Hv : validateTaskData task = inr tt) by reflexivity.
  assert (Hn : get_prop task "name" = inr (JStr " nightly-build")) by reflexivity.
  assert (Ht : Some t = run_ops ops ∅ !! "id-1") by done.
  assert (Hname : trimmed_name t = Some (JsString.trim " nightly-build")).
  { injection Ht as ->. reflexivity. }
  assert (Hd : ∃ d, get_prop task "description" = inr d ∧ string_or_missing d).
  { exists JUndefined. split; [reflexivity | by left]. }
  destruct (updateTask_may_keep_its_name ops task Completes
              "2024-01-03T00:00:00.000Z" "id-1" t " nightly-build" Hall Hk
              ltac:(discriminate) Hid Hv Hn Hname Hd)
    as (record & Hrun & Hrn & _ & Hc & He).
  exists t, record.
  split_and!; [exact Hall | done | exact Hrun | exact Hrn | exact Hc | exact He |].
  injection Ht as ->. reflexivity.
Defined.

(** * Further properties: the shape of stored tasks *)

Lemma createTask_success_valid task listing id now (kv kv' : kvstore) r :
  createTask task listing id now kv = (inr r, kv') →
  validateTaskData task = inr tt.
Proof.
  destruct (validateTaskData task) as [e|[]] eqn:Hv; [|done].
  by rewrite (createTask_invalid task listing id now kv e Hv).
Qed.

Lemma updateTask_success_valid task listing now (kv kv' : kvstore) r :
  updateTask task listing now kv = (inr r, kv') →
  validateTaskData task = inr tt.
Proof.
  unfold updateTask. unfold mbind, M_bind, lift, throw.
  destruct (get_prop task "id") as [e|id]; [done|].
  destruct (negb (truthy id)); [done|].
  by destruct (validateTaskData task) as [e|[]].
Qed.

Lemma call_trim_opt_result what desc d :
  call_trim_opt what desc = inr d → ∃ x, js_or d (JStr "") = JStr x.
Proof.
  destruct desc; simpl; try discriminate; intros [= <-]; try by exists "".
  unfold js_or. destruct (truthy _); by eexists.
Qed.

Lemma js_or_main_truthy ref : truthy (js_or ref (JStr "main")) = true.
Proof. unfold js_or. by destruct (truthy ref) eqn:E. Qed.

Lemma trimmed_nonempty s :
  JsString.trim s ≠ "" →
  JsString.trim (JsString.trim s) = JsString.trim s ∧ JsString.trim s ≠ "".
Proof. intros H. split; [apply JsStringFacts.trim_idemp | done]. Qed.

(** A record with the fields of the literal of the routes is well formed. *)
Lemma well_formed_of_fields (t : jsobj) n r w c ref d x :
  t !! "name" = Some (JStr (JsString.trim n)) → JsString.trim n ≠ "" →
  t !! "repo" = Some (JStr (JsString.trim r)) → JsString.trim r ≠ "" →
  t !! "workflow" = Some (JStr (JsString.trim w)) → JsString.trim w ≠ "" →
  t !! "cron" = Some (JStr (JsString.trim c)) → JsString.trim c ≠ "" →
  t !! "ref" = Some (js_or ref (JStr "main")) →
  t !! "description" = Some (js_or d (JStr "")) → js_or d (JStr "") = JStr x →
  t !! "id" = None →
  well_formed_task t.
Proof.
  intros Hn Hn' Hr Hr' Hw Hw' Hc Hc' Href Hd Hx Hid. split_and!; [|by eauto using js_or_main_truthy|rewrite Hd, Hx; by eexists|done].
  intros f Hf. unfold required_fields in Hf.
  rewrite !elem_of_cons, elem_of_nil in Hf.
  destruct Hf as [->|[->|[->|[->|[]]]]]; eexists; (split; [eassumption|]);
    by apply trimmed_nonempty.
Qed.

(** Well-formedness looks at seven fields only. *)
Lemma well_formed_same_fields (t t' : jsobj) :
  (∀ f, f ≠ "enabled" → f ≠ "updated_at" → t' !! f = t !! f) →
  well_formed_task t → well_formed_task t'.
Proof.
  intros Hsame (Hreq & (r & Hr & Hrt) & (d & Hd) & Hid). split_and!.
  - intros f Hf. destruct (Hreq f Hf) as (s & Hs & Hst). exists s.
    split; [|done]. rewrite Hsame; [done| |];
      unfold required_fields in Hf; rewrite !elem_of_cons, elem_of_nil in Hf;
      destruct Hf as [->|[->|[->|[->|[]]]]]; done.
  - exists r. by rewrite Hsame.
  - exists d. by rewrite Hsame.
  - by rewrite Hsame.
Qed.

Lemma handler_keeps_well_formed o (kv : kvstore) :
  all_well_formed kv → all_well_formed (snd (handler o kv)).
Proof.
  intros Hwf.
  destruct o as [task listing id now|task listing now|body|body now]; simpl.
  - destruct (createTask task listing id now kv) as [[e|r] kv'] eqn:Hrun.
    { destruct (createTask_cases task listing id now kv)
        as [[e' He]|(? & ? & ? & ? & ? & ? & ? & H)];
        [rewrite He in Hrun; by injection Hrun as _ <-|].
      destruct H as (_ & _ & _ & _ & _ & _ & _ & _ & _ & H). congruence. }
    pose proof (createTask_success_valid _ _ _ _ _ _ _ Hrun) as Hv.
    apply validateTaskData_ok in Hv
      as ((n & Hn & Hn') & (rp & Hr & Hr') & (w & Hw & Hw') & (c & Hc & Hc')).
    destruct (createTask_cases task listing id now kv)
      as [[e He]|(n0 & r0 & w0 & c0 & ref & desc & d & Hn0 & _ & Hr0 & Hw0 & Hc0
                  & _ & _ & Hd & _ & Hok)]; [congruence|].
    rewrite Hok in Hrun. injection Hrun as _ <-. simpl.
    assert (n0 = n) as -> by congruence. assert (r0 = rp) as -> by congruence.
    assert (w0 = w) as -> by congruence. assert (c0 = c) as -> by congruence.
    destruct (call_trim_opt_result _ _ _ Hd) as [x Hx].
    intros k t. rewrite lookup_insert. case_decide; [|apply Hwf].
    intros [= <-].
    by apply (well_formed_of_fields _ n rp w c ref d x).
  - destruct (updateTask task listing now kv) as [[e|r] kv'] eqn:Hrun.
    { destruct (updateTask_cases task listing now kv)
        as [[e' He]|(? & ? & ? & ? & ? & ? & ? & ? & ? & H)];
        [rewrite He in Hrun; by injection Hrun as _ <-|].
      destruct H as (_ & _ & _ & _ & _ & _ & _ & _ & _ & _ & _ & H). congruence. }
    pose proof (updateTask_success_valid _ _ _ _ _ _ Hrun) as Hv.
    apply validateTaskData_ok in Hv
      as ((n & Hn & Hn') & (rp & Hr & Hr') & (w & Hw & Hw') & (c & Hc & Hc')).
    destruct (updateTask_cases task listing now kv)
      as [[e He]|(k & existing & n0 & r0 & w0 & c0 & ref & desc & d & _ & Hk
                  & Hn0 & _ & Hr0 & Hw0 & Hc0 & _ & _ & Hd & _ & Hok)];
      [congruence|].
    rewrite Hok in Hrun. injection Hrun as _ <-. simpl.
    assert (n0 = n) as -> by congruence. assert (r0 = rp) as -> by congruence.
    assert (w0 = w) as -> by congruence. assert (c0 = c) as -> by congruence.
    destruct (call_trim_opt_result _ _ _ Hd) as [x Hx].
    destruct (Hwf k existing Hk) as (_ & _ & _ & Hid).
    intros k' t. rewrite lookup_insert. case_decide; [|apply Hwf].
    intros [= <-].
    apply (well_formed_of_fields _ n rp w c ref d x); try done;
      try (rewrite lookup_insert_ne by done; by apply lookup_union_Some_l).
    rewrite lookup_insert_ne by done. by apply lookup_union_None.
  - destruct (deleteTask_cases body kv) as [[r ->]|[k ->]]; [done|]. simpl.
    intros k' t [_ H]%lookup_delete_Some. by apply (Hwf k').
  - destruct (toggleTask_cases body now kv)
      as [[e ->]|(k & task & enabled & Hk & ->)]; [done|]. simpl.
    intros k' t. rewrite lookup_insert. case_decide; [|apply Hwf].
    intros [= <-]. apply (well_formed_same_fields task); [|by apply (Hwf k)].
    intros f Hf1 Hf2. rewrite lookup_insert_ne by done. rewrite lookup_union.
    rewrite lookup_insert_ne by done. by destruct (task !! f).
Qed.

Lemma run_ops_well_formed ops (kv : kvstore) :
  all_well_formed kv → all_well_formed (run_ops ops kv).
Proof.
  revert kv. induction ops as [|o ops IH]; intros kv Hwf; simpl; [done|].
  by apply IH, handler_keeps_well_formed.
Qed.

(** X11. Every task in a store written by the routes from the empty store
    is well formed: name, repo, workflow and cron are trimmed strings that
    are not empty, [ref] is truthy, [description] is a string, and the
    record has no [id] of its own. The timer of such a task therefore never
    fails before its request: when it fires it issues exactly one request,
    the dispatch with the task's [ref], and returns a log line. *)
Theorem stored_tasks_are_well_formed ops k t :
  run_ops ops ∅ !! k = Some t →
  well_formed_task t
  ∧ ∀ (W : Type) (fetch : W → fetch_args → fetch_result * W) token (n : net W),
      ∃ line n' req,
        fire fetch token {| pattern := prop t "cron";
                            captured := t ∪ {[ "id" := JStr k ]} |} n
        = (inr line, n')
        ∧ sent n' = sent n ++ [req]
        ∧ method req = Some "POST"
        ∧ body req = Some (JObj {[ "ref" := prop t "ref" ]}).
Proof.
  intros Hk.
  assert (Hwf : well_formed_task t).
  { eapply (run_ops_well_formed ops ∅); [|exact Hk].
    intros k' t'. by rewrite lookup_empty. }
  split; [done|]. intros W fetch token n.
  destruct Hwf as (Hreq & _).
  destruct (Hreq "workflow") as (w & Hw & _); [set_solver|].
  set (tm := {| pattern := prop t "cron"; captured := t ∪ {[ "id" := JStr k ]} |}).
  destruct (fire_triggers fetch token tm n) as [line Hfire].
  destruct (triggerWorkflow fetch token (prop (captured tm) "repo")
              (prop (captured tm) "workflow") (prop (captured tm) "ref") n)
    as [r n'] eqn:Htrig.
  assert (Hwp : prop (captured tm) "workflow" = JStr w).
  { unfold prop. simpl. by rewrite (lookup_union_Some_l _ _ _ _ Hw). }
  rewrite Hwp in Htrig. apply triggerWorkflow_sent in Htrig.
  exists line, n'. eexists. split_and!; [exact Hfire | exact Htrig | done |].
  simpl. do 3 f_equal. unfold prop. rewrite lookup_union.
  rewrite lookup_singleton_ne by done. by destruct (t !! "ref").
Qed.

Lemma stored_tasks_are_well_formed_witness :
  let ops := [ OpCreate scenarioA Completes "id-1" "2024-01-01T00:00:00.000Z";
               OpToggle (JObj {[ "id" := JStr "id-1" ]})
                        "2024-01-02T00:00:00.000Z" ] in
  ∃ t, run_ops ops ∅ !! "id-1" = Some t
       ∧ well_formed_task t
       ∧ ∃ line n' req,
           fire scripted "token" {| pattern := prop t "cron";
                                    captured := t ∪ {[ "id" := JStr "id-1" ]} |}
                offline = (inr line, n')
           ∧ sent n' = sent offline ++ [req] ∧ method req = Some "POST".
Proof.
  intros ops.
  destruct (run_ops ops ∅ !! "id-1") as [t|] eqn:Hk; [|by exfalso].
  destruct (stored_tasks_are_well_formed ops "id-1" t Hk) as (Hwf & Hfire).
  exists t. split_and!; [done..|].
  destruct (Hfire _ scripted "token" offline) as (line & n' & req & H1 & H2 & H3 & _).
  by exists line, n', req.
Defined.

(** * Further properties of strings *)

Module JsStringMore.
Import JsString JsStringFacts.

(** What [strip] removes is a sequence of members of the table. *)
Lemma strip_decompose table fuel s :
  ∃ ws, Forall (λ w, w ∈ table) ws ∧ s = concat ws ++ strip table fuel s.
Proof.
  revert s. induction fuel as [|fuel IH]; intros s; simpl.
  - by exists [].
  - destruct (drop_any table s) as [r|] eqn:E; [|by exists []].
    apply drop_any_Some in E as (w & Hw & ->).
    destruct (IH r) as (ws & Hws & Hr).
    exists (w :: ws). split; [by constructor|].
    simpl. rewrite <- app_assoc. by rewrite <- Hr.
Qed.

Lemma rev_concat (l : list (list ascii)) :
  rev (concat l) = concat (rev (map (@rev ascii) l)).
Proof.
  induction l as [|x l IH]; [done|]. simpl.
  rewrite rev_app_distr, IH, concat_app. simpl. by rewrite app_nil_r.
Qed.

Lemma trim_bytes_no_leading s : drop_any WhiteSpace (trim_bytes s) = None.
Proof.
  apply drop_any_None. intros w Hw Hpre.
  pose proof (trimStart_done s) as Ht. rewrite drop_any_None in Ht.
  apply (Ht w Hw). etrans; [exact Hpre | apply trimEnd_prefix].
Qed.

Lemma trim_bytes_decompose s :
  ∃ l r, s = l ++ trim_bytes s ++ r ∧ white l ∧ white r.
Proof.
  unfold trim_bytes.
  destruct (strip_decompose WhiteSpace (length s) s) as (ws1 & Hws1 & Hs).
  fold (trimStart_bytes s) in Hs. set (t := trimStart_bytes s) in *.
  destruct (strip_decompose (map (@rev ascii) WhiteSpace) (length t) (rev t))
    as (ws2 & Hws2 & Ht).
  exists (concat ws1), (concat (rev (map (@rev ascii) ws2))). split_and!.
  - rewrite Hs at 1. f_equal. unfold trimEnd_bytes.
    apply (f_equal (@rev ascii)) in Ht.
    rewrite rev_involutive, rev_app_distr, rev_concat in Ht. exact Ht.
  - by exists ws1.
  - eexists. split; [|done].
    apply Forall_forall. intros w Hw.
    apply list_elem_of_In, in_rev, in_map_iff in Hw as (w' & <- & Hw').
    rewrite Forall_forall in Hws2. apply list_elem_of_In in Hw'.
    specialize (Hws2 w' Hw').
    apply list_elem_of_In, in_map_iff in Hws2 as (w0 & <- & Hw0).
    rewrite rev_involutive. by apply list_elem_of_In.
Qed.

Lemma bytes_of_trim s :
  String.list_ascii_of_string (trim s)
  = trim_bytes (String.list_ascii_of_string s).
Proof. unfold trim. apply String.list_ascii_of_string_of_list_ascii. Qed.

End JsStringMore.

(** X13. [trim] removes white space from the two ends and nothing else: the
    string is the trimmed string between two runs of white space code
    points, and the trimmed string neither starts nor ends with a white
    space code point. *)
Theorem trim_removes_white_space_only s :
  ∃ l r,
    String.list_ascii_of_string s
    = l ++ String.list_ascii_of_string (JsString.trim s) ++ r
    ∧ white l ∧ white r
    ∧ ∀ w, w ∈ JsString.WhiteSpace →
           ¬ w `prefix_of` String.list_ascii_of_string (JsString.trim s)
           ∧ ¬ w `suffix_of` String.list_ascii_of_string (JsString.trim s).
Proof.
  rewrite JsStringMore.bytes_of_trim.
  set (b := String.list_ascii_of_string s).
  destruct (JsStringMore.trim_bytes_decompose b) as (l & r & Hb & Hl & Hr).
  exists l, r. split_and!; [done..|]. intros w Hw. split.
  - pose proof (JsStringMore.trim_bytes_no_leading b) as Hnone.
    rewrite JsStringFacts.drop_any_None in Hnone. by apply Hnone.
  - intros [k Hk].
    pose proof (JsStringFacts.trimEnd_done (JsString.trimStart_bytes b)) as Hnone.
    rewrite JsStringFacts.drop_any_None in Hnone.
    apply (Hnone (rev w)).
    + apply list_elem_of_In, in_map, list_elem_of_In, Hw.
    + exists (rev k). fold (JsString.trim_bytes b). rewrite Hk.
      apply rev_app_distr.
Qed.

(** * Further properties of the workflow identifier *)

Lemma append_cons c a b : String c a +:+ b = String c (a +:+ b).
Proof. reflexivity. Qed.

(** A string is what stands before its final segment, followed by that
    segment; what stands before is empty when the string is one segment, and
    ends with the separator otherwise. *)
Lemma last_segment_decompose s :
  ∃ front,
    s = front +:+ JsString.last_segment s
    ∧ ((front = "" ∧ JsString.split_slash s = [s])
       ∨ ((∃ f, front = f +:+ "/")
          ∧ (2 ≤ length (JsString.split_slash s))%nat)).
Proof.
  unfold JsString.last_segment.
  induction s as [|c s (front & IH & Hfront)].
  - exists "". split; [done|]. by left.
  - simpl. destruct (Ascii.eqb_spec c "/") as [->|Hc].
    + destruct (JsString.split_slash s) as [|seg segs] eqn:E;
        [by destruct (split_slash_nonempty s)|].
      exists (String "/" front). split.
      * rewrite append_cons. f_equal. exact IH.
      * right. split; [|simpl; lia].
        destruct Hfront as [[-> _]|[[f ->] _]].
        -- by exists "".
        -- by exists (String "/" f).
    + destruct (JsString.split_slash s) as [|seg segs] eqn:E;
        [by destruct (split_slash_nonempty s)|].
      destruct Hfront as [[-> Hone]|[[f ->] Hlen]].
      * injection Hone as -> ->. exists "". split; [reflexivity|]. by left.
      * destruct segs as [|seg' segs]; [simpl in Hlen; lia|].
        exists (String c (f +:+ "/")). split.
        -- rewrite append_cons. f_equal. exact IH.
        -- right. split; [by exists (String c f) | simpl; lia].
Qed.

Lemma split_one_no_slash s :
  JsString.split_slash s = [s] → JsString.includes_slash s = false.
Proof.
  induction s as [|c s IH]; simpl; [done|].
  destruct (Ascii.eqb c "/"); [discriminate|]. simpl.
  destruct (JsString.split_slash s) as [|seg segs] eqn:E;
    [by destruct (split_slash_nonempty s)|].
  intros [= -> ->]. by apply IH.
Qed.

(** X14. The identifier that [getWorkflowInfo] and [triggerWorkflow] put in
    the URL for a string is free of separators, is the whole string or
    what follows its last separator, and resolves to itself. *)
Theorem workflowPath_final_segment w :
  ∃ p,
    workflowPath (JStr w) = inr (JStr p)
    ∧ JsString.includes_slash p = false
    ∧ (w = p ∨ ∃ front, w = front +:+ "/" +:+ p)
    ∧ workflowPath (JStr p) = inr (JStr p).
Proof.
  unfold workflowPath.
  destruct (JsString.includes_slash w) eqn:Hw.
  - exists (JsString.last_segment w).
    pose proof (last_segment_no_slash w) as Hno. split_and!; [done..| |].
    + right. destruct (last_segment_decompose w) as (front & Hfront & [[_ Hone]|[[f ->] _]]).
      * rewrite (split_one_no_slash w Hone) in Hw. discriminate.
      * exists f. rewrite Hfront at 1. clear.
        induction f as [|c f IH]; [done|]. rewrite !append_cons. by f_equal.
    + by rewrite Hno.
  - exists w. split_and!; [done..|by left|]. by rewrite Hw.
Qed.

(** * Further properties of the GitHub client and the routes that use it *)

Section Client.

Context {W : Type}.
Variable fetch : W -> fetch_args -> fetch_result * W.
Variable token : string.
Variable toUpperCase : string -> string.

(** A request for an endpoint under [/repos/] goes to the GitHub API, with
    the headers of the token, whatever the options. *)
Lemma fetch_call_to_github rest o :
  to_github token (fetch_call token ("/repos/" +:+ rest) o).
Proof. split; [by exists rest | done]. Qed.

Lemma getWorkflowInfo_new repo workflow (n : net W) :
  ∃ new, sent (snd (getWorkflowInfo fetch token repo workflow n)) = sent n ++ new
         ∧ Forall (to_github token) new.
Proof.
  unfold getWorkflowInfo. unfold mbind, M_bind, lift.
  destruct (workflowPath workflow) as [e|p].
  - exists []. by rewrite app_nil_r.
  - destruct (request _ _ _ _ n) as [r n'] eqn:E. apply request_sent in E.
    eexists. split; [exact E|]. repeat constructor. apply fetch_call_to_github.
Qed.

Lemma triggerWorkflow_new repo workflow ref (n : net W) :
  ∃ new, sent (snd (triggerWorkflow fetch token repo workflow ref n))
         = sent n ++ new
         ∧ Forall (to_github token) new.
Proof.
  unfold triggerWorkflow. unfold mbind, M_bind, lift.
  destruct (workflowPath workflow) as [e|p].
  - exists []. by rewrite app_nil_r.
  - destruct (request _ _ _ _ n) as [[e|v] n'] eqn:E; apply request_sent in E;
      (eexists; split; [exact E|]; repeat constructor; apply fetch_call_to_github).
Qed.

Lemma cancelWorkflow_new repo runId (n : net W) :
  ∃ new, sent (snd (cancelWorkflow fetch token repo runId n)) = sent n ++ new
         ∧ Forall (to_github token) new.
Proof.
  unfold cancelWorkflow. unfold mbind, M_bind.
  destruct (request _ _ _ _ n) as [[e|v] n'] eqn:E; apply request_sent in E;
    (eexists; split; [exact E|]; repeat constructor; apply fetch_call_to_github).
Qed.

(** The requests of the status probe: the lookup, and after it the runs
    request unless the lookup has settled the result. *)
Lemma getWorkflowStatus_requests repo workflow (n : net W) :
  ∃ res n' new,
    getWorkflowStatus fetch token toUpperCase repo workflow n = (inr res, n')
    ∧ sent n' = sent n ++ new
    ∧ (new = [fetch_call token
                ("/repos/" +:+ to_string repo +:+ "/actions/workflows/"
                 +:+ to_string workflow) no_options]
       ∨ (new = [fetch_call token
                   ("/repos/" +:+ to_string repo +:+ "/actions/workflows/"
                    +:+ to_string workflow) no_options;
                 fetch_call token
                   ("/repos/" +:+ to_string repo +:+ "/actions/workflows/"
                    +:+ to_string workflow +:+ "/runs?per_page=1") no_options]
          ∧ res ≠ not_found_result ∧ res ≠ disabled_result)).
Proof.
  rewrite getWorkflowStatus_run.
  destruct (request _ _ _ _ n) as [[e|info] n1] eqn:E1; apply request_sent in E1.
  - destruct (strict_eq _ _); eexists _, _, _; (split_and!; [done|exact E1|by left]).
  - destruct (get_prop info "state") as [e|state].
    { eexists _, _, _. split_and!; [done|exact E1|by left]. }
    destruct (strict_eq state (JStr "not_found")).
    { eexists _, _, _. split_and!; [done|exact E1|by left]. }
    destruct (strict_eq state (JStr "disabled")).
    { eexists _, _, _. split_and!; [done|exact E1|by left]. }
    destruct (request _ _ _ _ n1) as [[e|data] n2] eqn:E2; apply request_sent in E2.
    + eexists _, _, _. split_and!; [done| |right; split_and!; [done|done..]].
      by rewrite E2, E1, <- app_assoc.
    + pose proof (latest_run_status_cases token toUpperCase data) as Hcases.
      destruct (fst (latest_run_status toUpperCase data tt)) as [e|res].
      * eexists _, _, _. split_and!; [done| |right; split_and!; [done|done..]].
        by rewrite E2, E1, <- app_assoc.
      * eexists _, _, _. split_and!; [done| |right; split; [done|]].
        { by rewrite E2, E1, <- app_assoc. }
        destruct Hcases as (wr & len & _ & _ & Hc).
        destruct (truthy len).
        -- destruct Hc as (? & ? & ? & ? & _ & _ & _ & _ & _ & _ & Hm & _).
           destruct (run_message_distinct res Hm) as (H1 & H2 & _). by split.
        -- subst res. by split.
Qed.

(** X7. Every request that the client issues, for any arguments, goes to a
    URL under https://api.github.com/repos/ and carries the headers built
    from the token: the workflow lookup, the dispatch, the cancel and the
    status probe send the token nowhere else. *)
Theorem requests_go_to_github (n : net W) :
  (∀ repo workflow,
     ∃ new, sent (snd (getWorkflowInfo fetch token repo workflow n)) = sent n ++ new
            ∧ Forall (to_github token) new)
  ∧ (∀ repo workflow ref,
       ∃ new, sent (snd (triggerWorkflow fetch token repo workflow ref n))
              = sent n ++ new
              ∧ Forall (to_github token) new)
  ∧ (∀ repo runId,
       ∃ new, sent (snd (cancelWorkflow fetch token repo runId n)) = sent n ++ new
              ∧ Forall (to_github token) new)
  ∧ (∀ repo workflow,
       ∃ new, sent (snd (getWorkflowStatus fetch token toUpperCase repo workflow n))
              = sent n ++ new
              ∧ Forall (to_github token) new)
  ∧ (∀ branches_first repo,
       ∃ new, sent (snd (getRepoInfo fetch token branches_first repo n))
              = sent n ++ new
              ∧ Forall (to_github token) new).
Proof.
  split_and!.
  - intros. apply getWorkflowInfo_new.
  - intros. apply triggerWorkflow_new.
  - intros. apply cancelWorkflow_new.
  - intros repo workflow.
    destruct (getWorkflowStatus_requests repo workflow n)
      as (res & n' & new & -> & Hsent & [->|[-> _]]);
      (eexists; split; [exact Hsent|]); repeat constructor;
      apply fetch_call_to_github.
  - intros b repo. unfold getRepoInfo.
    destruct (request _ _ _ _ n) as [r1 n1] eqn:E1. apply request_sent in E1.
    destruct (request _ _ _ _ n1) as [r2 n2] eqn:E2. apply request_sent in E2.
    assert (Hn2 : sent n2 = sent n ++
              [fetch_call token ("/repos/" +:+ to_string repo +:+ "/branches")
                          no_options;
               fetch_call token ("/repos/" +:+ to_string repo
                                 +:+ "/actions/workflows") no_options]).
    { by rewrite E2, E1, <- app_assoc. }
    assert (Hall : Forall (to_github token)
              [fetch_call token ("/repos/" +:+ to_string repo +:+ "/branches")
                          no_options;
               fetch_call token ("/repos/" +:+ to_string repo
                                 +:+ "/actions/workflows") no_options]).
    { repeat constructor; apply fetch_call_to_github. }
    destruct r1 as [e1|branches], r2 as [e2|wfs]; try (eexists; split; [exact Hn2|exact Hall]).
    unfold mbind, M_bind, lift, throw, mret, M_ret.
    destruct (get_prop_opt wfs "workflows") as [e|l]; [by eexists|].
    destruct (negb (truthy branches) || negb (truthy l)); [by eexists|].
    destruct (call_map _ _ branches); [by eexists|].
    destruct (get_prop wfs "workflows"); [by eexists|].
    destruct (call_map _ _ _); by eexists.
Qed.

(** X8. The status probe only reads: it returns a result after one request
    or two, each without method and without body, and it issues the second
    one, for the runs, only when the lookup has not settled the result: a
    NOT_FOUND or DISABLED result comes after exactly one request. *)
Theorem getWorkflowStatus_only_reads repo workflow (n : net W) :
  ∃ res n' new,
    getWorkflowStatus fetch token toUpperCase repo workflow n = (inr res, n')
    ∧ sent n' = sent n ++ new
    ∧ Forall is_get new
    ∧ (length new = 1 ∨ length new = 2)%nat
    ∧ (res = not_found_result ∨ res = disabled_result → length new = 1%nat).
Proof.
  destruct (getWorkflowStatus_requests repo workflow n)
    as (res & n' & new & Hrun & Hsent & [->|(-> & Hnf & Hdis)]);
    exists res, n'; eexists; (split_and!; [exact Hrun | exact Hsent | | |]).
  - by repeat constructor.
  - by left.
  - done.
  - by repeat constructor.
  - by right.
  - by intros [?|?].
Qed.

(** X9. The run route for a stored task whose workflow is a string: when the
    lookup answers with the state [active], the route issues two requests,
    the lookup and then the dispatch for the same resolved identifier with
    the task's [ref] as body; its outcome is that of the dispatch, the
    success body when the dispatch returns; the store is not written. An id
    that is not stored ends the route with the error of the store, before
    any request. *)
Theorem runTaskNow_dispatches_when_active body id (kv : kvstore) (n : net W) :
  get_prop body "id" = inr id →
  (∀ e, store_get id kv = (inl e, kv) →
        runTaskNow fetch token body (kv, n) = (inl e, (kv, n)))
  ∧ (∀ task w info n1,
       store_get id kv = (inr task, kv) → prop task "workflow" = JStr w →
       getWorkflowInfo fetch token (prop task "repo") (JStr w) n = (inr info, n1) →
       get_prop info "state" = inr (JStr "active") →
       ∃ r n2,
         triggerWorkflow fetch token (prop task "repo") (JStr w)
                         (prop task "ref") n1 = (r, n2)
         ∧ runTaskNow fetch token body (kv, n)
           = (match r with inl e => inl e | inr _ => inr success_body end,
              (kv, n2))
         ∧ ∃ p, workflowPath (JStr w) = inr (JStr p)
                ∧ sent n2
                  = sent n
                    ++ [ fetch_call token
                           ("/repos/" +:+ to_string (prop task "repo")
                            +:+ "/actions/workflows/" +:+ p) no_options;
                         fetch_call token
                           ("/repos/" +:+ to_string (prop task "repo")
                            +:+ "/actions/workflows/" +:+ p +:+ "/dispatches")
                           {| opt_method := Some "POST";
                              opt_body := Some (JObj {[ "ref" := prop task "ref" ]}) |} ]).
Proof.
  intros Hid. split.
  - intros e Hget. unfold runTaskNow. unfold mbind, M_bind, lift, on_fst.
    rewrite Hid. cbn [fst snd]. by rewrite Hget.
  - intros task w info n1 Hget Hw Hinfo Hstate.
    destruct (triggerWorkflow fetch token (prop task "repo") (JStr w)
                (prop task "ref") n1) as [r n2] eqn:Htrig.
    exists r, n2. split_and!; [done| |].
    + unfold runTaskNow. unfold mbind, M_bind, lift, on_fst, on_snd.
      rewrite Hid. cbn [fst snd]. rewrite Hget. cbn [fst snd].
      rewrite Hw, Hinfo, Hstate. cbn [strict_eq].
      replace (String.eqb "active" "active") with true by reflexivity.
      cbn [negb fst snd]. rewrite Htrig. by destruct r as [e|[]].
    + eexists. split; [apply workflowPath_string|].
      apply getWorkflowInfo_sent in Hinfo. apply triggerWorkflow_sent in Htrig.
      by rewrite Htrig, Hinfo, <- app_assoc.
Qed.

End Client.

Lemma runTaskNow_dispatches_when_active_witness :
  let n := online [ answer 200 "OK" (JObj {[ "state" := JStr "active" ]});
                    answer 204 "No Content" JNull ] in
  ∃ n2,
    runTaskNow scripted "token" (JObj {[ "id" := JStr "id-1" ]})
      (one_task_store, n) = (inr success_body, (one_task_store, n2))
    ∧ method <$> sent n2 = [None; Some "POST"]
    ∧ runTaskNow scripted "token" (JObj {[ "id" := JStr "id-9" ]})
        (one_task_store, n)
      = (inl (AppError "任务不存在" 404), (one_task_store, n)).
Proof.
  intros n.
  set (body := JObj {[ "id" := JStr "id-1" ]}).
  set (body9 := JObj {[ "id" := JStr "id-9" ]}).
  set (task := <[ "created_at" := JStr "2024-01-01T00:00:00.000Z" ]>
                 (task_literal (JStr "nightly-build") (JStr "acme/app")
                    (JStr "build.yml") (JStr "main") (JStr "0 2 * * *") (JStr ""))).
  assert (Hid : get_prop body "id" = inr (JStr "id-1")) by reflexivity.
  assert (Hid9 : get_prop body9 "id" = inr (JStr "id-9")) by reflexivity.
  destruct (runTaskNow_dispatches_when_active scripted "token" body (JStr "id-1")
              one_task_store n Hid) as [_ Hactive].
  destruct (runTaskNow_dispatches_when_active scripted "token" body9 (JStr "id-9")
              one_task_store n Hid9) as [Hmissing _].
  destruct (Hactive task "build.yml"
              (JObj {[ "state" := JStr "active" ]})
              {| world := [ answer 204 "No Content" JNull ];
                 sent := [ fetch_call "token"
                             "/repos/acme/app/actions/workflows/build.yml"
                             no_options ] |}
              ltac:(reflexivity) ltac:(reflexivity) ltac:(reflexivity)
              ltac:(reflexivity))
    as (r & n2 & Htrig & Hrun & p & Hp & Hsent).
  exists n2. split_and!.
  - rewrite Hrun. assert (r = inr tt) as -> by (revert Htrig; by intros [= <- _]).
    done.
  - rewrite Hsent. reflexivity.
  - apply Hmissing. reflexivity.
Defined.

(** * Further properties of startup *)

(** X10. The loop of [startApp] stops at the first task whose cron pattern
    croner rejects: the error is thrown out of [startApp], the tasks before
    it have their timers, and neither it nor any task after it is
    scheduled. *)
Theorem schedule_stops_at_rejected_cron
    (Cron_accepts : jsval → bool) before task after timers :
  Forall (λ t, Cron_accepts (prop t "cron") = true) before →
  Cron_accepts (prop task "cron") = false →
  ∃ e, schedule Cron_accepts (before ++ task :: after) timers
       = (inl e,
          timers ++ map (λ t, {| pattern := prop t "cron"; captured := t |})
                        before).
Proof.
  intros Hbefore Htask. revert timers.
  induction Hbefore as [|t before Ht _ IH]; intros timers; simpl.
  - unfold mbind, M_bind. rewrite Htask. eexists. unfold throw.
    by rewrite app_nil_r.
  - unfold mbind, M_bind. rewrite Ht. unfold modify.
    destruct (IH (timers ++ [{| pattern := prop t "cron"; captured := t |}]))
      as [e He].
    exists e. unfold mbind, M_bind in He. rewrite He. by rewrite <- app_assoc.
Qed.

Lemma schedule_stops_at_rejected_cron_witness :
  let accepts := λ v, strict_eq v (JStr "0 2 * * *") in
  ∃ e tasks timers,
    TaskStore.list Completes two_task_store = (inr tasks, two_task_store)
    ∧ schedule accepts tasks [] = (inl e, timers)
    ∧ pattern <$> timers = [JStr "0 2 * * *"].
Proof.
  intros accepts.
  set (t1 := <[ "created_at" := JStr "2024-01-01T00:00:00.000Z" ]>
               (task_literal (JStr "nightly-build") (JStr "acme/app")
                  (JStr "build.yml") (JStr "main") (JStr "0 2 * * *") (JStr ""))
             ∪ {[ "id" := JStr "id-1" ]} : jsobj).
  set (t2 := <[ "enabled" := JBool false ]>
               (<[ "created_at" := JStr "2024-01-02T00:00:00.000Z" ]>
                  (task_literal (JStr "weekly") (JStr "acme/app")
                     (JStr "ci/test.yml") (JStr "main") (JStr "0 0 * * 0")
                     (JStr "")))
             ∪ {[ "id" := JStr "id-2" ]} : jsobj).
  destruct (schedule_stops_at_rejected_cron accepts [t1] t2 [] [])
    as [e He].
  - repeat constructor.
  - reflexivity.
  - exists e. eexists [t1; t2], _. split_and!; [reflexivity | exact He | reflexivity].
Defined.

(** * Further properties: cron patterns and repository information *)



Section RepoInfo.

Context {W : Type}.
Variable fetch : W -> fetch_args -> fetch_result * W.
Variable token : string.

(** [map] over an array of objects reads the property of each, in order. *)
Lemma map_array_objects {A} (f : jsobj → A) (g : jsval → exn + A) (os : list jsobj) :
  (∀ o, g (JObj o) = inr (f o)) →
  map_array g (JObj <$> os) = inr (f <$> os).
Proof.
  intros Hg. induction os as [|o os IH]; [done|].
  rewrite !fmap_cons. cbn [map_array]. by rewrite Hg, IH.
Qed.

(** X12. [getRepoInfo] issues its two requests, for the branches and then for
    the workflows, whatever the first one answers. When the first answers
    with an array of objects and the second with an object whose
    [workflows] is an array of objects, it returns the [name] of each branch
    and the [name] and [path] of each workflow, in their order; when either
    request fails it throws; when the branches answer is [null] (a 204) or
    the workflows answer has no [workflows], it throws the error of status
    400. *)
Theorem getRepoInfo_reads_names branches_first repo (n : net W) :
  ∃ r n1 n2 r1 r2,
    request fetch token ("/repos/" +:+ to_string repo +:+ "/branches")
            no_options n = (r1, n1)
    ∧ request fetch token ("/repos/" +:+ to_string repo +:+ "/actions/workflows")
              no_options n1 = (r2, n2)
    ∧ getRepoInfo fetch token branches_first repo n = (r, n2)
    ∧ sent n2
      = sent n
        ++ [ fetch_call token ("/repos/" +:+ to_string repo +:+ "/branches")
                        no_options;
             fetch_call token ("/repos/" +:+ to_string repo
                               +:+ "/actions/workflows") no_options ]
    ∧ (∀ bs wobj ws,
         r1 = inr (JArr (JObj <$> bs)) → r2 = inr (JObj wobj) →
         wobj !! "workflows" = Some (JArr (JObj <$> ws)) →
         r = inr {| branches := (λ b, prop b "name") <$> bs;
                    workflows := (λ w, <[ "name" := prop w "name" ]>
                                         {[ "path" := prop w "path" ]}) <$> ws |})
    ∧ ((∃ e, r1 = inl e) ∨ (∃ e, r2 = inl e) → ∃ e, r = inl e)
    ∧ (∀ v1 v2, r1 = inr v1 → r2 = inr v2 →
                v1 = JNull ∨ get_prop_opt v2 "workflows" = inr JUndefined →
                r = inl (AppError "无法获取仓库信息" 400)).
Proof.
  destruct (request fetch token ("/repos/" +:+ to_string repo +:+ "/branches")
              no_options n) as [r1 n1] eqn:E1.
  destruct (request fetch token
              ("/repos/" +:+ to_string repo +:+ "/actions/workflows")
              no_options n1) as [r2 n2] eqn:E2.
  destruct (getRepoInfo fetch token branches_first repo n) as [r n'] eqn:Hrun.
  assert (n' = n2) as ->.
  { revert Hrun. unfold getRepoInfo. rewrite E1, E2.
    destruct r1 as [e1|v1], r2 as [e2|v2]; try by intros [= _ <-].
    unfold mbind, M_bind, lift, throw, mret, M_ret.
    destruct (get_prop_opt v2 "workflows") as [e|l]; [by intros [= _ <-]|].
    destruct (negb (truthy v1) || negb (truthy l)); [by intros [= _ <-]|].
    destruct (call_map _ _ v1); [by intros [= _ <-]|].
    destruct (get_prop v2 "workflows"); [by intros [= _ <-]|].
    destruct (call_map _ _ _); by intros [= _ <-]. }
  revert Hrun. unfold getRepoInfo. rewrite E1, E2. intros Hrun.
  exists r, n1, n2, r1, r2. split_and!; [done | done | done | | | |].
  - apply request_sent in E1, E2. by rewrite E2, E1, <- app_assoc.
  - intros bs wobj ws -> -> Hws. revert Hrun.
    unfold mbind, M_bind, lift, mret, M_ret. cbn [get_prop_opt get_prop].
    unfold prop at 1 2. rewrite Hws. cbn [default id truthy negb orb call_map].
    rewrite (map_array_objects (λ b, prop b "name")) by done.
    rewrite (map_array_objects
               (λ w, <[ "name" := prop w "name" ]> {[ "path" := prop w "path" ]}))
      by done.
    by intros [= <-].
  - intros [[e ->]|[e ->]].
    + destruct r2; injection Hrun as <-; by eexists.
    + destruct r1; injection Hrun as <-; by eexists.
  - intros v1 v2 -> -> [->|Hnone]; revert Hrun.
    + unfold mbind, M_bind, lift, throw.
      destruct (get_prop_opt v2 "workflows") as [e|l] eqn:El;
        [destruct v2; discriminate|]. by intros [= <-].
    + unfold mbind, M_bind, lift, throw. rewrite Hnone. cbn [truthy negb].
      rewrite orb_true_r. by intros [= <-].
Qed.

End RepoInfo.

Lemma getRepoInfo_reads_names_witness :
  let n := online
             [ answer 200 "OK"
                 (JArr [ JObj {[ "name" := JStr "main" ]};
                         JObj {[ "name" := JStr "dev" ]} ]);
               answer 200 "OK"
                 (JObj {[ "workflows" :=
                            JArr [ JObj (<[ "name" := JStr "CI" ]>
                                         {[ "path" := JStr ".github/workflows/ci.yml" ]}) ] ]}) ] in
  ∃ n2,
    getRepoInfo scripted "token" true (JStr "acme/app") n
    = (inr {| branches := [JStr "main"; JStr "dev"];
              workflows := [ <[ "name" := JStr "CI" ]>
                               {[ "path" := JStr ".github/workflows/ci.yml" ]} ] |},
       n2)
    ∧ url <$> sent n2
      = [ "https://api.github.com/repos/acme/app/branches";
          "https://api.github.com/repos/acme/app/actions/workflows" ].
Proof.
  intros n.
  destruct (getRepoInfo_reads_names scripted "token" true (JStr "acme/app") n)
    as (r & n1 & n2 & r1 & r2 & H1 & H2 & Hrun & Hsent & Hok & _).
  exists n2. split; [|by rewrite Hsent].
  rewrite Hrun. f_equal.
  set (b1 := {[ "name" := JStr "main" ]} : jsobj).
  set (b2 := {[ "name" := JStr "dev" ]} : jsobj).
  set (w1 := <[ "name" := JStr "CI" ]>
               {[ "path" := JStr ".github/workflows/ci.yml" ]} : jsobj).
  rewrite (Hok [b1; b2] {[ "workflows" := JArr [JObj w1] ]} [w1]).
  - reflexivity.
  - revert H1. by intros [= <- _].
  - revert H1 H2. intros [= _ <-]. by intros [= <- _].
  - reflexivity.
Defined.

(** * Further properties of [request] and the status route *)

Section Request.

Context {W : Type}.
Variable fetch : W -> fetch_args -> fetch_result * W.
Variable token : string.
Variable toUpperCase : string -> string.

(** X16. [request] calls [fetch] once, with the base URL before the
    endpoint, and decides by the answer: a rejected [fetch] and a body that
    is not JSON throw the error of the runtime; a status outside 200..299
    throws an [AppError] with that status; status 204 gives [null] without
    reading the body; any other status in 200..299 gives the parsed body. So
    it returns exactly when the status is in 200..299 and is 204 or comes
    with a JSON body. *)
Theorem request_contract endpoint o (n : net W) :
  ∃ res r n',
    fetch (world n) (fetch_call token endpoint o) = (res, world n')
    ∧ request fetch token endpoint o n = (r, n')
    ∧ sent n' = sent n ++ [fetch_call token endpoint o]
    ∧ url (fetch_call token endpoint o) = "https://api.github.com" +:+ endpoint
    ∧ match res with
      | Rejected m => r = inl (RuntimeError m)
      | Resolved response =>
          let st := Response.status response in
          ((st < 200 ∨ 299 < st) →
           r = inl (AppError ("GitHub API 请求失败: "
                              +:+ Response.statusText response) st))
          ∧ (st = 204 → r = inr JNull)
          ∧ (200 ≤ st ≤ 299 → st ≠ 204 →
             r = match Response.json response with
                 | inl m => inl (RuntimeError m)
                 | inr v => inr v
                 end)
      end
    ∧ ((∃ v, r = inr v)
       ↔ ∃ response,
           res = Resolved response
           ∧ 200 ≤ Response.status response ≤ 299
           ∧ (Response.status response = 204
              ∨ ∃ v, Response.json response = inr v)).
Proof.
  destruct (fetch (world n) (fetch_call token endpoint o)) as [res w] eqn:E.
  set (r := match res with
            | Rejected m => inl (RuntimeError m)
            | Resolved response =>
                if negb (Response.ok response) then
                  inl (AppError ("GitHub API 请求失败: "
                                 +:+ Response.statusText response)
                                (Response.status response))
                else if Response.status response =? 204 then inr JNull
                else match Response.json response with
                     | inl m => inl (RuntimeError m)
                     | inr v => inr v
                     end
            end).
  assert (Hreq : request fetch token endpoint o n
                 = (r, {| world := w;
                          sent := sent n ++ [fetch_call token endpoint o] |})).
  { unfold request, r. rewrite E. destruct res as [m|response]; [done|].
    destruct (negb _); [done|]. destruct (_ =? _); [done|].
    by destruct (Response.json response). }
  exists res, r, {| world := w; sent := sent n ++ [fetch_call token endpoint o] |}.
  split_and!; [done..| |].
  - unfold r. destruct res as [m|response]; [done|]. cbv zeta.
    unfold Response.ok.
    destruct (Z.leb_spec 200 (Response.status response));
      destruct (Z.leb_spec (Response.status response) 299);
      destruct (Z.eqb_spec (Response.status response) 204);
      cbn [andb negb]; split_and!; intros; try done; lia.
  - unfold r. destruct res as [m|response].
    { split; [by intros [v [=]] | by intros (? & [=] & _)]. }
    unfold Response.ok.
    destruct (Z.leb_spec 200 (Response.status response));
      destruct (Z.leb_spec (Response.status response) 299);
      destruct (Z.eqb_spec (Response.status response) 204);
      cbn [andb negb];
      try (split; [by intros [v [=]] | intros (? & [= <-] & ? & _); lia]).
    + split; [intros _ | by eexists]. exists response. split_and!; [done|lia|lia|by left].
    + destruct (Response.json response) as [m|v] eqn:Hj.
      * split; [by intros [v [=]]|].
        intros (? & [= <-] & _ & [?|[v Hv]]); [done|congruence].
      * split; [intros _ | by eexists]. exists response.
        split_and!; [done|lia|lia|right; by eexists].
Qed.

(** X17. The status route can throw although the probe cannot: it throws,
    before any request, exactly when the request body is [null] or
    [undefined]; for any other body it returns the result of the probe for
    the body's [repo] and [workflow]. A body without these two fields is
    probed under the text [undefined]. *)
Theorem workflowStatus_route body (n : net W) :
  (body = JUndefined ∨ body = JNull →
   ∃ e, workflowStatus fetch token toUpperCase body n = (inl e, n))
  ∧ (body ≠ JUndefined → body ≠ JNull →
     ∃ repo workflow res n',
       get_prop body "repo" = inr repo
       ∧ get_prop body "workflow" = inr workflow
       ∧ getWorkflowStatus fetch token toUpperCase repo workflow n = (inr res, n')
       ∧ workflowStatus fetch token toUpperCase body n = (inr res, n'))
  ∧ (∀ o, body = JObj o → o !! "repo" = None → o !! "workflow" = None →
     ∃ rest,
       url <$> sent (snd (workflowStatus fetch token toUpperCase body n))
       = (url <$> sent n)
         ++ "https://api.github.com/repos/undefined/actions/workflows/undefined"
            :: rest).
Proof.
  assert (Hprobe : ∀ repo workflow, ∃ res n',
             getWorkflowStatus fetch token toUpperCase repo workflow n
             = (inr res, n')).
  { intros repo workflow.
    destruct (getWorkflowStatus fetch token toUpperCase repo workflow n)
      as [[e|res] n'] eqn:E; [|by eexists _, _].
    exfalso. revert E. unfold getWorkflowStatus, catch.
    by destruct (getWorkflowStatus_try _ _ _ _ _ n) as [[e'|res] n1]. }
  split_and!.
  - intros [->| ->]; by eexists.
  - intros H1 H2. unfold workflowStatus. unfold mbind, M_bind, lift.
    destruct (get_prop body "repo") as [e|repo] eqn:Hr;
      [by destruct body|].
    destruct (get_prop body "workflow") as [e|workflow] eqn:Hw;
      [by destruct body|].
    destruct (Hprobe repo workflow) as (res & n' & Hres).
    by exists repo, workflow, res, n'.
  - intros o -> Hr Hw. unfold workflowStatus. unfold mbind, M_bind, lift.
    cbn [get_prop]. unfold prop. rewrite Hr, Hw. cbn [default id].
    destruct (getWorkflowStatus fetch token toUpperCase JUndefined JUndefined n)
      as [r n'] eqn:E.
    apply getWorkflowStatus_first_request in E as [rest E].
    exists (url <$> rest). cbn [snd]. rewrite E. by rewrite fmap_app.
Qed.

End Request.
